(** * job_alert.py: the daily job alert script, verified

    A shallow embedding of [src/job_alert.py].  The script is a linear
    pipeline: a guard on two secrets, a time gate, one HTTP GET whose JSON
    answer is filtered by keywords, and one SMTP session.

    Modelling choices.
    - A Python [str] is a [string]; the model is exact on ASCII text.
      [lower] folds the letters A-Z and [strip] removes the ASCII white
      space of [str.isspace]; characters above 127 are left alone (Python
      would also fold and strip the non-ASCII ones).  Text outside ASCII
      is held as its UTF-8 bytes, and a lone surrogate (JSON's \ud800,
      say) as the three bytes ED A0..BF 80..BF of its generalized form:
      that is the text [msg.encode("utf-8")] refuses.
    - The value [resp.json()] returns is a [json] tree; a dict is the list
      of its items (keys distinct), read from the front.
    - Everything outside the script is a [world]: the clock, the time-zone
      database, the HTTP server and the SMTP server.  The script runs in a
      small monad that threads the number of clock readings and the trace
      of observable events, and ends by returning, by raising or by
      [sys.exit].
    - The configuration is the record [config] of the module-level
      constants, after the environment was read.  [TARGET_HOUR] is the
      integer [int(...)] returned. *)

From Stdlib Require Import ZArith List String Ascii Bool Lia.
From Stdlib Require Import Floats.PrimFloat.
Import ListNotations.

Local Open Scope string_scope.
Local Open Scope Z_scope.

Set Warnings "-register-all".

(** ** Python strings *)

Module PyStr.

(** The line feed: Python's ["\n"]. *)
Definition nl : string := String (ascii_of_nat 10) EmptyString.

(** [c.isspace()] on ASCII: TAB..CR, FS..US and the space. *)
Definition isspace (c : ascii) : bool :=
  let n := nat_of_ascii c in
  ((9 <=? n)%nat && (n <=? 13)%nat) || ((28 <=? n)%nat && (n <=? 32)%nat).

Definition lower_char (c : ascii) : ascii :=
  let n := nat_of_ascii c in
  if ((65 <=? n)%nat && (n <=? 90)%nat)%bool then ascii_of_nat (n + 32) else c.

(** [s.lower()] *)
Fixpoint lower (s : string) : string :=
  match s with
  | EmptyString => EmptyString
  | String c r => String (lower_char c) (lower r)
  end.

(** [s.lstrip()] *)
Fixpoint lstrip (s : string) : string :=
  match s with
  | EmptyString => EmptyString
  | String c r => if isspace c then lstrip r else s
  end.

(** [s.rstrip()] *)
Fixpoint rstrip (s : string) : string :=
  match s with
  | EmptyString => EmptyString
  | String c r =>
      match rstrip r with
      | EmptyString => if isspace c then EmptyString else String c EmptyString
      | r' => String c r'
      end
  end.

(** [s.strip()] *)
Definition strip (s : string) : string := rstrip (lstrip s).

(** [s.split(sep)] for a separator of one character. *)
Fixpoint split (sep : ascii) (s : string) : list string :=
  match s with
  | EmptyString => [EmptyString]
  | String c r =>
      if Ascii.eqb c sep then EmptyString :: split sep r
      else match split sep r with
           | h :: t => String c h :: t
           | [] => [String c EmptyString]
           end
  end.

(** [s.startswith(p)] *)
Fixpoint startswith (p s : string) : bool :=
  match p, s with
  | EmptyString, _ => true
  | String _ _, EmptyString => false
  | String a p', String b s' => Ascii.eqb a b && startswith p' s'
  end.

(** [needle in hay] *)
Fixpoint contains (needle hay : string) : bool :=
  startswith needle hay ||
  match hay with
  | EmptyString => false
  | String _ r => contains needle r
  end.

(** [sep.join(parts)] *)
Definition join (sep : string) (parts : list string) : string :=
  String.concat sep parts.

(** Truth value of a [str]: the empty one is false. *)
Definition truthy (s : string) : bool :=
  match s with EmptyString => false | _ => true end.

(** The first and the last character of a string, when it has one. *)
Definition first (s : string) : option ascii :=
  match s with EmptyString => None | String c _ => Some c end.

Fixpoint last (s : string) : option ascii :=
  match s with
  | EmptyString => None
  | String c EmptyString => Some c
  | String _ r => last r
  end.

(** The byte ED followed by a byte in A0..BF: the start of a surrogate,
    which well-formed UTF-8 never holds. *)
Definition surrogate_start (a b : ascii) : bool :=
  (nat_of_ascii a =? 237)%nat
  && ((160 <=? nat_of_ascii b)%nat && (nat_of_ascii b <=? 191)%nat).

(** The string holds a surrogate. *)
Fixpoint has_surrogate (s : string) : bool :=
  match s with
  | EmptyString => false
  | String a r =>
      match r with
      | EmptyString => false
      | String b _ => surrogate_start a b || has_surrogate r
      end
  end.

(** [s.encode("utf-8")]: the bytes of the string, which the model holds
    already; [None] when the codec raises UnicodeEncodeError. *)
Definition encode (s : string) : option string :=
  if has_surrogate s then None else Some s.

End PyStr.

(** What the specification calls a substring: some text before and some
    text after. *)
Definition substring_of (k t : string) : Prop :=
  exists pre post, t = pre ++ k ++ post.

(** ** JSON values, as [resp.json()] returns them *)

Inductive json : Type :=
| JNull                                 (* None *)
| JBool (b : bool)
| JInt (n : Z)
| JFloat (f : float)
| JStr (s : string)
| JArr (l : list json)                  (* list *)
| JObj (d : list (string * json)).      (* dict *)

Module Py.

(** [bool(v)]: None, False, zero, and the empty str, list and dict are
    false. *)
Definition truthy (v : json) : bool :=
  match v with
  | JNull => false
  | JBool b => b
  | JInt n => negb (n =? 0)
  | JFloat f => negb (PrimFloat.eqb f 0%float)
  | JStr s => PyStr.truthy s
  | JArr l => match l with [] => false | _ => true end
  | JObj d => match d with [] => false | _ => true end
  end.

(** [a or b] *)
Definition or (a b : json) : json := if truthy a then a else b.

(** [d.get(k, default)] *)
Fixpoint get_default (d : list (string * json)) (k : string) (default : json) : json :=
  match d with
  | [] => default
  | (k', v) :: rest => if String.eqb k' k then v else get_default rest k default
  end.

(** [d.get(k)] *)
Definition get (d : list (string * json)) (k : string) : json :=
  get_default d k JNull.

(** Truth value of an environment value: [None] and [""] are false. *)
Definition truthy_opt (v : option string) : bool :=
  match v with None => false | Some s => PyStr.truthy s end.

(** [a and b] on two such values. *)
Definition and (a b : option string) : option string :=
  if truthy_opt a then b else a.

End Py.

(** ** Local time *)

(** What [local_now()] returns: the instant read from the clock (POSIX
    seconds) and the offset from UTC (seconds) of the zone it is shown in.
    [aware] is false for the naive value of [datetime.utcnow()]. *)
Record datetime : Type := mk_datetime {
  instant : Z;
  utcoffset : Z;
  aware : bool
}.

Module Calendar.

Definition wall_seconds (t : datetime) : Z := instant t + utcoffset t.

(** [t.hour] *)
Definition hour (t : datetime) : Z := (wall_seconds t / 3600) mod 24.

(** Days since 1970-01-01 to (year, month, day), proleptic Gregorian. *)
Definition civil_from_days (days : Z) : Z * Z * Z :=
  let z := days + 719468 in
  let era := z / 146097 in
  let doe := z - era * 146097 in
  let yoe := (doe - doe / 1460 + doe / 36524 - doe / 146096) / 365 in
  let doy := doe - (365 * yoe + yoe / 4 - yoe / 100) in
  let mp := (5 * doy + 2) / 153 in
  let d := doy - (153 * mp + 2) / 5 + 1 in
  let m := if mp <? 10 then mp + 3 else mp - 9 in
  let y := yoe + era * 400 in
  (if m <=? 2 then y + 1 else y, m, d).

(** [t.date()] *)
Definition date (t : datetime) : Z * Z * Z :=
  civil_from_days (wall_seconds t / 86400).

Definition digit (n : Z) : string :=
  String (ascii_of_nat (48 + Z.to_nat (n mod 10))) EmptyString.

(** [d.isoformat()]: YYYY-MM-DD. *)
Definition isoformat (d : Z * Z * Z) : string :=
  let '(y, m, dd) := d in
  digit (y / 1000) ++ digit (y / 100) ++ digit (y / 10) ++ digit y ++ "-" ++
  digit (m / 10) ++ digit m ++ "-" ++ digit (dd / 10) ++ digit dd.

End Calendar.

(** ** Exceptions, events and the world *)

Inductive smtp_call : Type := Connect | Starttls | Login | Sendmail | Quit.

Inductive exn : Type :=
| AttributeError                        (* [.get] or [.strip] on a value without it *)
| TypeError                             (* [jobs[1:]] on a value that cannot be sliced; a dict raises KeyError instead from Python 3.12 on *)
| ZoneInfoNotFoundError (key : string)
| RequestException (msg : string)       (* [requests.get] raised *)
| HTTPError (status : Z)                (* [raise_for_status] *)
| JSONDecodeError (msg : string)        (* [resp.json()] raised *)
| SMTPException (call : smtp_call) (msg : string)
| UnicodeEncodeError.                   (* [msg.encode("utf-8")] *)

(** A line printed on the console, by the [print] that wrote it. *)
Inductive logline : Type :=
| LogSecretsMissing                     (* [ERROR] SENDER_EMAIL and SENDER_PASSWORD must be set. *)
| LogLocalTime (tz : string) (now : datetime)
| LogNotTargetHour                      (* [INFO] Not the target hour - exiting. *)
| LogFetchFailed (e : exn)
| LogEmailSent (receiver : option string) (n : nat)
| LogSendFailed (e : exn).

(** What the script does that can be observed, in order. *)
Inductive event : Type :=
| Console (line : logline)
| HttpGet (url user_agent : string) (timeout : Z)
| SmtpConnect (host : string) (port timeout : Z)
| SmtpStarttls
| SmtpLogin (user password : option string)
| SmtpSendmail (sender receiver : option string) (msg : string)
| SmtpQuit.

Definition is_network (ev : event) : bool :=
  match ev with Console _ => false | _ => true end.

(** The answer to the GET, when there is one. *)
Record response : Type := mk_response {
  status_code : Z;
  body : string + json                  (* [inl msg]: [resp.json()] raises *)
}.

Record world : Type := mk_world {
  zoneinfo_imported : bool;             (* [from zoneinfo import ZoneInfo] worked *)
  tzdata : string -> option (Z -> Z);   (* [ZoneInfo(key)]: the offset at an instant, or no such zone *)
  clock : nat -> Z;                     (* the k-th reading of the system clock *)
  http : string + response;             (* [inl msg]: [requests.get] raises *)
  smtp_error : smtp_call -> option string;  (* the calls of the SMTP session that raise *)
  str_of : json -> string               (* [str(v)] for a [v] that is not a str *)
}.

(** ** The monad the script runs in *)

Inductive result (A : Type) : Type :=
| Ok (a : A)
| Raise (e : exn)
| SysExit (code : Z).

Arguments Ok {A} a.
Arguments Raise {A} e.
Arguments SysExit {A} code.

Record state : Type := mk_state {
  ticks : nat;                          (* clock readings so far *)
  out : list event                      (* events so far, oldest first *)
}.

Definition M (A : Type) : Type := state -> result A * state.

Definition ret {A} (a : A) : M A := fun s => (Ok a, s).

Definition bind {A B} (m : M A) (k : A -> M B) : M B :=
  fun s =>
    match m s with
    | (Ok a, s') => k a s'
    | (Raise e, s') => (Raise e, s')
    | (SysExit c, s') => (SysExit c, s')
    end.

Definition raise {A} (e : exn) : M A := fun s => (Raise e, s).

Definition sys_exit {A} (code : Z) : M A := fun s => (SysExit code, s).

Definition emit (ev : event) : M unit :=
  fun s => (Ok tt, mk_state (ticks s) (out s ++ [ev])%list).

Definition print (line : logline) : M unit := emit (Console line).

Definition read_clock (w : world) : M Z :=
  fun s => (Ok (clock w (ticks s)), mk_state (S (ticks s)) (out s)).

(** [try: m except Exception as e: handler e].  [SystemExit] is not an
    [Exception] and passes through. *)
Definition try_except {A} (m : M A) (handler : exn -> M A) : M A :=
  fun s =>
    match m s with
    | (Raise e, s') => handler e s'
    | r => r
    end.

(** A computation that touches neither the clock nor the trace. *)
Definition lift {A} (r : result A) : M A := fun s => (r, s).

Definition rbind {A B} (r : result A) (k : A -> result B) : result B :=
  match r with
  | Ok a => k a
  | Raise e => Raise e
  | SysExit c => SysExit c
  end.

Notation "x <- m ;; k" := (bind m (fun x => k))
  (at level 61, m at next level, right associativity).
Notation "m ;;; k" := (bind m (fun _ => k))
  (at level 61, right associativity).
Notation "x <~ r ;; k" := (rbind r (fun x => k))
  (at level 61, r at next level, right associativity).

(** ** CONFIG from env *)

Record config : Type := mk_config {
  SENDER_EMAIL : option string;
  SENDER_PASSWORD : option string;
  RECEIVER_EMAIL : option string;
  TIMEZONE : string;
  TARGET_HOUR : Z;
  REMOTEOK_API : string;
  KEYWORDS : list string
}.

(** [os.environ.get(name, default)] *)
Definition environ_get (environ : string -> option string) (name default : string) : string :=
  match environ name with Some v => v | None => default end.

Definition default_keywords : string :=
  "program analyst,software developer,data warehouse,data management,intern,entry level,junior,data engineer".

(** [[k.strip().lower() for k in raw.split(",") if k.strip()]] *)
Definition parse_keywords (raw : string) : list string :=
  map (fun k => PyStr.lower (PyStr.strip k))
      (filter (fun k => PyStr.truthy (PyStr.strip k)) (PyStr.split "," raw)).

(** The module-level assignments.  [int] is Python's conversion of a str to
    an integer, on the strings it accepts. *)
Definition load_config (int : string -> Z) (environ : string -> option string) : config :=
  let sender := environ "SENDER_EMAIL" in
  {| SENDER_EMAIL := sender;
     SENDER_PASSWORD := environ "SENDER_PASSWORD";
     RECEIVER_EMAIL :=
       match environ "RECEIVER_EMAIL" with Some r => Some r | None => sender end;
     TIMEZONE := environ_get environ "TIMEZONE" "America/Chicago";
     TARGET_HOUR := int (environ_get environ "TARGET_HOUR" "12");
     REMOTEOK_API := environ_get environ "REMOTEOK_API" "https://remoteok.io/api";
     KEYWORDS := parse_keywords (environ_get environ "KEYWORDS" default_keywords) |}.

(** ** The script *)

(** A posting, as [fetch_jobs] appends it to [results]. *)
Record posting : Type := mk_posting {
  title : string;
  company : string;
  link : json
}.

Section Script.

Variable w : world.
Variable cfg : config.

Definition local_now : M datetime :=
  if zoneinfo_imported w then
    match tzdata w (TIMEZONE cfg) with
    | None => raise (ZoneInfoNotFoundError (TIMEZONE cfg))
    | Some offset_at =>
        t <- read_clock w ;;
        ret (mk_datetime t (offset_at t) true)
    end
  else
    t <- read_clock w ;;
    ret (mk_datetime t 0 false).

Definition is_target_time : M bool :=
  now <- local_now ;;
  print (LogLocalTime (TIMEZONE cfg) now) ;;;
  ret (Calendar.hour now =? TARGET_HOUR cfg).

(** [any(kw in title.lower() for kw in KEYWORDS)] *)
Definition matches (keywords : list string) (title : string) : bool :=
  existsb (fun kw => PyStr.contains kw (PyStr.lower title)) keywords.

(** [v.strip()]: only a str has it. *)
Definition strip_value (v : json) : result string :=
  match v with
  | JStr s => Ok (PyStr.strip s)
  | _ => Raise AttributeError
  end.

(** The three assignments at the top of the loop body. *)
Definition normalize (j : json) : result posting :=
  match j with
  | JObj d =>
      title <~ strip_value (Py.or (Py.get d "position") (Py.or (Py.get d "title") (JStr ""))) ;;
      company <~ strip_value (Py.get_default d "company" (JStr "")) ;;
      let link := Py.or (Py.get d "url") (Py.or (Py.get d "apply_url") (JStr "")) in
      Ok (mk_posting title company link)
  | _ => Raise AttributeError          (* [j.get] *)
  end.

(** One turn of the loop. *)
Definition loop_body (keywords : list string) (j : json) (results : list posting)
  : result (list posting) :=
  p <~ normalize j ;;
  if matches keywords (title p) then Ok (results ++ [p])%list else Ok results.

(** [for j in ...: ...] *)
Fixpoint for_each (keywords : list string) (js : list json) (results : list posting)
  : result (list posting) :=
  match js with
  | [] => Ok results
  | j :: rest => r <~ loop_body keywords j results ;; for_each keywords rest r
  end.

(** What the loop runs over: [jobs[1:]].  A list loses its first element;
    a str loses its first character and yields the others one by one;
    nothing else can be sliced. *)
Definition slice_from_1 (jobs : json) : result (list json) :=
  match jobs with
  | JArr l => Ok (tl l)
  | JStr s => Ok (map (fun c => JStr (String c EmptyString)) (tl (list_ascii_of_string s)))
  | _ => Raise TypeError
  end.

(** The lines after the [try]: from the parsed answer to [results]. *)
Definition select (keywords : list string) (jobs : json) : result (list posting) :=
  js <~ slice_from_1 jobs ;;
  for_each keywords js [].

Definition requests_get : M response :=
  emit (HttpGet (REMOTEOK_API cfg) "Mozilla/5.0" 15) ;;;
  match http w with
  | inl msg => raise (RequestException msg)
  | inr resp => ret resp
  end.

Definition raise_for_status (resp : response) : M unit :=
  if (400 <=? status_code resp) && (status_code resp <? 600)
  then raise (HTTPError (status_code resp))
  else ret tt.

Definition resp_json (resp : response) : M json :=
  match body resp with
  | inl msg => raise (JSONDecodeError msg)
  | inr v => ret v
  end.

(** The [try] block returns the parsed answer; the handler returns from
    the function with the empty list. *)
Definition fetch_jobs : M (list posting) :=
  r <- try_except
         (resp <- requests_get ;;
          raise_for_status resp ;;;
          jobs <- resp_json resp ;;
          ret (inr jobs))
         (fun e => print (LogFetchFailed e) ;;; ret (inl [])) ;;
  match r with
  | inl early => ret early
  | inr jobs => lift (select (KEYWORDS cfg) jobs)
  end.

(** [f"{v}"] *)
Definition format_value (v : json) : string :=
  match v with
  | JStr s => s
  | _ => str_of w v
  end.

(** [f"{j['title']} at {j['company']}\nApply: {j['link']}\n"] *)
Definition block (j : posting) : string :=
  title j ++ " at " ++ company j ++ PyStr.nl ++
  "Apply: " ++ format_value (link j) ++ PyStr.nl.

Definition email_body (jobs : list posting) : string :=
  match jobs with
  | [] => "No matching jobs found today."
  | _ => PyStr.join PyStr.nl (map block jobs)
  end.

Definition email_subject (now : datetime) : string :=
  "Daily Remote Jobs — " ++ Calendar.isoformat (Calendar.date now).

(** A call of the SMTP session: it is made, and the server may fail it. *)
Definition smtp (call : smtp_call) (ev : event) : M unit :=
  emit ev ;;;
  match smtp_error w call with
  | Some msg => raise (SMTPException call msg)
  | None => ret tt
  end.

(** [msg.encode("utf-8")], the argument of [sendmail]: evaluated before
    the call is made. *)
Definition encode_utf8 (msg : string) : M string :=
  match PyStr.encode msg with
  | Some bytes => ret bytes
  | None => raise UnicodeEncodeError
  end.

Definition send_email (jobs : list posting) : M unit :=
  now <- local_now ;;
  let subject := email_subject now in
  let body := email_body jobs in
  let msg := "Subject: " ++ subject ++ PyStr.nl ++ PyStr.nl ++ body in
  try_except
    (smtp Connect (SmtpConnect "smtp.gmail.com" 587 20) ;;;
     smtp Starttls SmtpStarttls ;;;
     smtp Login (SmtpLogin (SENDER_EMAIL cfg) (SENDER_PASSWORD cfg)) ;;;
     bytes <- encode_utf8 msg ;;
     smtp Sendmail (SmtpSendmail (SENDER_EMAIL cfg) (RECEIVER_EMAIL cfg) bytes) ;;;
     smtp Quit SmtpQuit ;;;
     print (LogEmailSent (RECEIVER_EMAIL cfg) (List.length jobs)))
    (fun e => print (LogSendFailed e)).

Definition main : M unit :=
  if negb (Py.truthy_opt (Py.and (SENDER_EMAIL cfg) (SENDER_PASSWORD cfg))) then
    print LogSecretsMissing ;;;
    sys_exit 1
  else
    gate <- is_target_time ;;
    if negb gate then
      print LogNotTargetHour ;;;
      ret tt
    else
      jobs <- fetch_jobs ;;
      send_email jobs.

(** The process: [main()] from the initial state.  An exception nobody
    caught ends the process with status 1, [sys.exit(c)] with [c], a
    return with 0. *)
Definition initial : state := mk_state 0 [].

Definition exit_status {A} (r : result A) : Z :=
  match r with
  | Ok _ => 0
  | Raise _ => 1
  | SysExit c => c
  end.

Definition run : Z * list event :=
  let (r, s) := main initial in (exit_status r, out s).

Definition status : Z := fst run.
Definition trace : list event := snd run.

(** The events of the trace that go over the network. *)
Definition network_calls : list event := filter is_network trace.

End Script.

(** ** Vocabulary of the statements *)

(** A secret is present when it is set and not empty; [main] tests its
    truth value, so an empty one counts as absent. *)
Definition present (v : option string) : Prop := Py.truthy_opt v = true.
Definition absent (v : option string) : Prop := Py.truthy_opt v = false.

(** The zone [local_now] shows the clock in: the configured one, or UTC
    when [zoneinfo] could not be imported; [None] when the lookup raises. *)
Definition zone (w : world) (cfg : config) : option (Z -> Z) :=
  if zoneinfo_imported w then tzdata w (TIMEZONE cfg) else Some (fun _ => 0).

(** What the [try] block of [fetch_jobs] ends with: the exception one of
    its three calls raised, or the parsed answer. *)
Definition fetch_outcome (w : world) : exn + json :=
  match http w with
  | inl msg => inl (RequestException msg)
  | inr resp =>
      if (400 <=? status_code resp) && (status_code resp <? 600)
      then inl (HTTPError (status_code resp))
      else match body resp with
           | inl msg => inl (JSONDecodeError msg)
           | inr v => inr v
           end
  end.

(** The three ways a fetch fails. *)
Inductive fetch_failure (w : world) : exn -> Prop :=
| network_failure (msg : string) :
    http w = inl msg ->
    fetch_failure w (RequestException msg)
| bad_status (resp : response) :
    http w = inr resp ->
    400 <= status_code resp < 600 ->
    fetch_failure w (HTTPError (status_code resp))
| parse_failure (resp : response) (msg : string) :
    http w = inr resp ->
    ~ 400 <= status_code resp < 600 ->
    body resp = inl msg ->
    fetch_failure w (JSONDecodeError msg).

(** The fetch succeeded and the answer parsed to [jobs]. *)
Definition fetch_parsed (w : world) (jobs : json) : Prop :=
  exists resp,
    http w = inr resp /\ ~ 400 <= status_code resp < 600 /\ body resp = inr jobs.

Definition is_str (v : json) : bool :=
  match v with JStr _ => true | _ => false end.

(** A record the loop body accepts: a dict whose title value and whose
    company value are strs. *)
Definition well_formed (j : json) : bool :=
  match j with
  | JObj d =>
      is_str (Py.or (Py.get d "position") (Py.or (Py.get d "title") (JStr "")))
      && is_str (Py.get_default d "company" (JStr ""))
  | _ => false
  end.

(** A feed of the expected shape: a list whose elements after the first are
    such records. *)
Definition well_shaped (jobs : json) : bool :=
  match jobs with
  | JArr l => forallb well_formed (tl l)
  | _ => false
  end.

(** The calls of the SMTP session up to the login go through. *)
Definition smtp_reaches_sendmail (w : world) : Prop :=
  smtp_error w Connect = None /\ smtp_error w Starttls = None /\
  smtp_error w Login = None.

(** The message [send_email] hands to [sendmail]. *)
Definition message (w : world) (now : datetime) (jobs : list posting) : string :=
  "Subject: " ++ email_subject now ++ PyStr.nl ++ PyStr.nl ++ email_body w jobs.

(** The local time the gate sees on a run: the first reading of the clock,
    shown in the zone with offset [offset_at]. *)
Definition gate_time (w : world) (offset_at : Z -> Z) : datetime :=
  mk_datetime (clock w 0) (offset_at (clock w 0)) (zoneinfo_imported w).

(** The local time [send_email] dates the subject with on a run that gets
    there: the second reading of the clock. *)
Definition send_time (w : world) (offset_at : Z -> Z) : datetime :=
  mk_datetime (clock w 1) (offset_at (clock w 1)) (zoneinfo_imported w).

(** The five calls of the SMTP session, in the order of the [try] block,
    each with the event it leaves. *)
Definition smtp_calls (cfg : config) (msg : string) : list (smtp_call * event) :=
  [(Connect, SmtpConnect "smtp.gmail.com" 587 20);
   (Starttls, SmtpStarttls);
   (Login, SmtpLogin (SENDER_EMAIL cfg) (SENDER_PASSWORD cfg));
   (Sendmail, SmtpSendmail (SENDER_EMAIL cfg) (RECEIVER_EMAIL cfg) msg);
   (Quit, SmtpQuit)].

(** The calls that are made, up to and including the first the server
    fails, and the exception of that one. *)
Fixpoint attempted (w : world) (calls : list (smtp_call * event)) : list event * option exn :=
  match calls with
  | [] => ([], None)
  | (call, ev) :: rest =>
      match smtp_error w call with
      | Some msg => ([ev], Some (SMTPException call msg))
      | None => let (evs, r) := attempted w rest in (ev :: evs, r)
      end
  end.

(** The calls before the message is encoded, and those after. *)
Definition opening_calls (cfg : config) : list (smtp_call * event) :=
  [(Connect, SmtpConnect "smtp.gmail.com" 587 20);
   (Starttls, SmtpStarttls);
   (Login, SmtpLogin (SENDER_EMAIL cfg) (SENDER_PASSWORD cfg))].

Definition closing_calls (cfg : config) (bytes : string) : list (smtp_call * event) :=
  [(Sendmail, SmtpSendmail (SENDER_EMAIL cfg) (RECEIVER_EMAIL cfg) bytes);
   (Quit, SmtpQuit)].

(** The session of [send_email] for a message: the calls up to the login,
    the encoding of the message, then [sendmail] and [quit]; it stops at
    the first call the server fails, and before [sendmail] when the
    message does not encode. *)
Definition session (w : world) (cfg : config) (msg : string) : list event * option exn :=
  match attempted w (opening_calls cfg) with
  | (evs, Some e) => (evs, Some e)
  | (evs, None) =>
      match PyStr.encode msg with
      | None => (evs, Some UnicodeEncodeError)
      | Some bytes =>
          let (evs', r) := attempted w (closing_calls cfg bytes) in
          ((evs ++ evs')%list, r)
      end
  end.

(** The line [send_email] prints last. *)
Definition closing_line(cfg : config) (jobs : list posting) (r : option exn) : logline :=
  match r with
  | None => LogEmailSent (RECEIVER_EMAIL cfg) (List.length jobs)
  | Some e => LogSendFailed e
  end.

(** An ASCII capital letter. *)
Definition is_upper (c : ascii) : bool :=
  let n := nat_of_ascii c in ((65 <=? n)%nat && (n <=? 90)%nat)%bool.

(** The characters of a string. *)
Definition chars (s : string) : list ascii := list_ascii_of_string s.

(** No byte of the string is ED, the only byte a surrogate starts with. *)
Definition no_ed_byte (s : string) : bool :=
  forallb (fun c => negb (nat_of_ascii c =? 237)%nat) (chars s).

(** Every character of the string is ASCII. *)
Definition ascii_only (s : string) : bool :=
  forallb (fun c => (nat_of_ascii c <? 128)%nat) (chars s).

(** A string with no white space at either end. *)
Definition trimmed (s : string) : Prop :=
  (forall c, PyStr.first s = Some c -> PyStr.isspace c = false)
  /\ (forall c, PyStr.last s = Some c -> PyStr.isspace c = false).

(** The event of an HTTP request. *)
Definition is_http (ev : event) : bool :=
  match ev with HttpGet _ _ _ => true | _ => false end.

(** ** Sample inputs *)

(** The surrogate U+D800 alone, as JSON's \ud800 parses: bytes ED A0 80. *)
Definition lone_surrogate : string :=
  String (ascii_of_nat 237) (String (ascii_of_nat 160) (String (ascii_of_nat 128) EmptyString)).

Definition surrogate_posting : posting :=
  mk_posting ("Data Engineer " ++ lone_surrogate) "Acme" (JStr "http://x").

Definition sample_record : json :=
  JObj [("position", JStr "Junior Data Engineer");
        ("company", JStr "Acme");
        ("url", JStr "http://x")].

Definition sample_posting : posting :=
  mk_posting "Junior Data Engineer" "Acme" (JStr "http://x").

(** The environment of a run with both secrets and the defaults. *)
Definition sample_environ (name : string) : option string :=
  if String.eqb name "SENDER_EMAIL" then Some "me@example.org"
  else if String.eqb name "SENDER_PASSWORD" then Some "app-password"
  else None.

Definition sample_config : config := load_config (fun _ => 12) sample_environ.

(** Central time, taken as six hours behind UTC all year. *)
Definition sample_tzdata (key : string) : option (Z -> Z) :=
  if String.eqb key "America/Chicago" then Some (fun _ => -21600) else None.

(** 2026-11-03 18:30:00 UTC, 12:30 in Chicago; one second passes between
    two readings of the clock. *)
Definition noon_clock (k : nat) : Z := 1793730600 + Z.of_nat k.

(** 2026-11-03 13:46:40 UTC, 07:46 in Chicago. *)
Definition morning_clock (k : nat) : Z := 1793713600 + Z.of_nat k.

Definition sample_feed : json :=
  JArr [JObj [("legal", JStr "terms of the feed")];
        sample_record;
        JObj [("position", JStr "Chef"); ("company", JStr "Bistro")]].

Definition sample_world (clock : nat -> Z) (http : string + response) : world :=
  {| zoneinfo_imported := true;
     tzdata := sample_tzdata;
     clock := clock;
     http := http;
     smtp_error := fun _ => None;
     str_of := fun _ => "" |}.

Definition good_world : world :=
  sample_world noon_clock (inr (mk_response 200 (inr sample_feed))).

Definition offline_world : world :=
  sample_world noon_clock (inl "connection refused").

Definition morning_world : world :=
  sample_world morning_clock (inr (mk_response 200 (inr sample_feed))).

(** The server answers 200 with a JSON object, not a list. *)
Definition object_world : world :=
  sample_world noon_clock
    (inr (mk_response 200 (inr (JObj [("error", JStr "rate limited")])))).

(** The sender address is set and the credential is not. *)
Definition no_password_config : config :=
  load_config (fun _ => 12)
    (fun name => if String.eqb name "SENDER_EMAIL" then Some "me@example.org" else None).

(** The SMTP server refuses the login. *)
Definition rejected_login_world : world :=
  {| zoneinfo_imported := true;
     tzdata := sample_tzdata;
     clock := noon_clock;
     http := inr (mk_response 200 (inr sample_feed));
     smtp_error := fun call => match call with Login => Some "535 bad credentials" | _ => None end;
     str_of := fun _ => "" |}.

(** The target hour is set to 24. *)
Definition hour_24_config : config :=
  load_config (fun _ => 24)
    (fun name => if String.eqb name "TARGET_HOUR" then Some "24" else sample_environ name).

(** No [zoneinfo] on the host, and a zone name nobody knows. *)
Definition no_zoneinfo_world : world :=
  {| zoneinfo_imported := false;
     tzdata := fun _ => None;
     clock := noon_clock;
     http := inl "connection refused";
     smtp_error := fun _ => None;
     str_of := fun _ => "" |}.

Definition utc_18_config : config :=
  load_config (fun _ => 18)
    (fun name => if String.eqb name "TIMEZONE" then Some "Mars/Olympus"
                 else sample_environ name).

Definition mars_config : config :=
  load_config (fun _ => 12)
    (fun name => if String.eqb name "TIMEZONE" then Some "Mars/Olympus"
                 else sample_environ name).

(** The server takes the message and fails the closing [quit]. *)
Definition failing_quit_world : world :=
  {| zoneinfo_imported := true;
     tzdata := sample_tzdata;
     clock := noon_clock;
     http := inr (mk_response 200 (inr sample_feed));
     smtp_error := fun call => match call with Quit => Some "connection reset" | _ => None end;
     str_of := fun _ => "" |}.

Definition blank_position_record : json :=
  JObj [("position", JStr "  "); ("title", JStr "Data Engineer");
        ("apply_url", JStr " http://y ")].

Definition null_company_feed : json :=
  JArr [JObj []; sample_record;
        JObj [("position", JStr "Cook"); ("company", JNull)]].

Definition null_company_world : world :=
  sample_world noon_clock (inr (mk_response 200 (inr null_company_feed))).

Definition null_answer_world : world :=
  sample_world noon_clock (inr (mk_response 200 (inr JNull))).

Definition padded_feed : json :=
  JArr [JNull;
        JObj [("title", JStr "  Data Engineer II  "); ("company", JStr " Acme ")]].

(** * Properties *)

(** ** Strings *)

Module PyStrFacts.
Import PyStr.

Lemma startswith_app (p post : string) : startswith p (p ++ post) = true.
Proof.
  induction p as [|a p IH]; simpl; [reflexivity|].
  now rewrite Ascii.eqb_refl, IH.
Qed.

Lemma startswith_inv (p s : string) :
  startswith p s = true -> exists post, s = p ++ post.
Proof.
  revert s; induction p as [|a p IH]; intros s H.
  - now exists s.
  - destruct s as [|b s]; simpl in H; [discriminate|].
    apply andb_prop in H as [Hab Hps].
    apply Ascii.eqb_eq in Hab; subst b.
    destruct (IH _ Hps) as [post ->].
    now exists post.
Qed.

Lemma startswith_contains (k t : string) :
  startswith k t = true -> contains k t = true.
Proof. destruct t; simpl; intros ->; reflexivity. Qed.

(** [in] decides the substring relation. *)
Lemma contains_spec (k t : string) :
  contains k t = true <-> substring_of k t.
Proof.
  split.
  - induction t as [|c t IH]; simpl; intros H.
    + rewrite orb_false_r in H.
      destruct (startswith_inv _ _ H) as [post Hpost].
      now exists EmptyString, post.
    + apply orb_prop in H as [H|H].
      * destruct (startswith_inv _ _ H) as [post Hpost].
        now exists EmptyString, post.
      * destruct (IH H) as (pre & post & ->).
        now exists (String c pre), post.
  - intros (pre & post & ->).
    induction pre as [|c pre IH]; simpl.
    + apply startswith_contains, startswith_app.
    + rewrite IH. apply orb_true_r.
Qed.

Lemma contains_empty_hay (k : string) : contains k EmptyString = true -> k = EmptyString.
Proof. destruct k; simpl; [reflexivity | discriminate]. Qed.

Lemma isspace_lower_char (c : ascii) : isspace (lower_char c) = isspace c.
Proof. destruct c as [[] [] [] [] [] [] [] []]; reflexivity. Qed.

Lemma first_lower (s : string) : first (lower s) = option_map lower_char (first s).
Proof. destruct s; reflexivity. Qed.

Lemma last_lower (s : string) : last (lower s) = option_map lower_char (last s).
Proof.
  induction s as [|c s IH]; [reflexivity|].
  destruct s as [|d s]; [reflexivity|].
  exact IH.
Qed.

Lemma lower_empty (s : string) : lower s = EmptyString -> s = EmptyString.
Proof. destruct s; simpl; [reflexivity | discriminate]. Qed.

Lemma first_lstrip (s : string) (c : ascii) :
  first (lstrip s) = Some c -> isspace c = false.
Proof.
  induction s as [|a s IH]; simpl; [discriminate|].
  destruct (isspace a) eqn:E; [exact IH|].
  simpl; intros [= <-]; exact E.
Qed.

Lemma last_rstrip (s : string) (c : ascii) :
  last (rstrip s) = Some c -> isspace c = false.
Proof.
  induction s as [|a s IH]; simpl; [discriminate|].
  destruct (rstrip s) as [|b r] eqn:E.
  - destruct (isspace a) eqn:Ea; simpl; [discriminate|].
    intros [= <-]; exact Ea.
  - exact IH.
Qed.

Lemma first_rstrip (s : string) (c : ascii) :
  first (rstrip s) = Some c -> first s = Some c.
Proof.
  destruct s as [|a s]; simpl; [discriminate|].
  destruct (rstrip s); [destruct (isspace a)|]; simpl; congruence.
Qed.

(** [strip] leaves no white space at either end. *)
Lemma strip_ends (s : string) (c : ascii) :
  first (strip s) = Some c \/ last (strip s) = Some c -> isspace c = false.
Proof.
  unfold strip; intros [H|H].
  - apply first_rstrip in H. now apply first_lstrip in H.
  - now apply last_rstrip in H.
Qed.

Lemma truthy_nonempty (s : string) : truthy s = true <-> s <> EmptyString.
Proof. destruct s; simpl; split; congruence. Qed.

End PyStrFacts.

(** ** The filter *)

Lemma matches_spec (keywords : list string) (t : string) :
  matches keywords t = true <->
  exists k, In k keywords /\ substring_of k (PyStr.lower t).
Proof.
  unfold matches. rewrite existsb_exists.
  split; intros (k & Hin & Hk); exists k; split; trivial;
    now apply PyStrFacts.contains_spec.
Qed.

Lemma loop_body_normalized (keywords : list string) (j : json) (p : posting)
      (results : list posting) :
  normalize j = Ok p ->
  loop_body keywords j results =
  Ok (if matches keywords (title p) then (results ++ [p])%list else results).
Proof.
  intros H. unfold loop_body. rewrite H. simpl.
  now destruct (matches keywords (title p)).
Qed.

Lemma snoc_neq {A} (l : list A) (x : A) : (l ++ [x])%list <> l.
Proof.
  intros H. apply (f_equal (@List.length A)) in H.
  rewrite length_app in H. simpl in H. lia.
Qed.

(** Over records that all normalize, the loop is a filter. *)
Lemma for_each_normalized (keywords : list string) (js : list json) (ps : list posting) :
  Forall2 (fun j p => normalize j = Ok p) js ps ->
  forall results,
    for_each keywords js results =
    Ok (results ++ filter (fun p => matches keywords (title p)) ps)%list.
Proof.
  induction 1 as [|j p js ps Hj _ IH]; intros results; simpl.
  - now rewrite app_nil_r.
  - rewrite (loop_body_normalized _ _ _ _ Hj). simpl.
    destruct (matches keywords (title p)); rewrite IH; [|reflexivity].
    now rewrite <- app_assoc.
Qed.

(** With no keyword the loop appends nothing. *)
Lemma for_each_no_keyword (js : list json) (results r : list posting) :
  for_each [] js results = Ok r -> r = results.
Proof.
  revert results; induction js as [|j js IH]; intros results; simpl.
  - now intros [= <-].
  - unfold loop_body. destruct (normalize j) as [p| |]; simpl; try discriminate.
    apply IH.
Qed.

Lemma for_each_inv (keywords : list string) (js : list json) :
  forall results r,
    for_each keywords js results = Ok r ->
    exists ps,
      Forall2 (fun j p => normalize j = Ok p) js ps
      /\ r = (results ++ filter (fun p => matches keywords (title p)) ps)%list.
Proof.
  induction js as [|j js IH]; intros results r; simpl.
  - intros [= <-]. exists []. split; [constructor | now rewrite app_nil_r].
  - unfold loop_body. destruct (normalize j) as [p|e|c] eqn:Hj; simpl; try discriminate.
    intros H.
    destruct (matches keywords (title p)) eqn:Hm;
      apply IH in H as (ps & Hps & ->); exists (p :: ps);
      (split; [now constructor|]); simpl; rewrite Hm; [|reflexivity].
    now rewrite <- app_assoc.
Qed.

Lemma select_inv (keywords : list string) (jobs : json) (r : list posting) :
  select keywords jobs = Ok r ->
  exists js ps,
    Forall2 (fun j p => normalize j = Ok p) js ps
    /\ r = filter (fun p => matches keywords (title p)) ps.
Proof.
  unfold select. destruct (slice_from_1 jobs) as [js|e|c]; simpl; try discriminate.
  intros H. apply for_each_inv in H as (ps & Hps & ->). now exists js, ps.
Qed.

Lemma Forall2_In_r {A B} (R : A -> B -> Prop) (l : list A) (l' : list B) (y : B) :
  Forall2 R l l' -> In y l' -> exists x, In x l /\ R x y.
Proof.
  induction 1 as [|a b l l' Hab _ IH]; simpl; [intros []|].
  intros [<- | Hin]; [now exists a; auto|].
  destruct (IH Hin) as (x & Hx & Hr). exists x. auto.
Qed.

(** ** The keyword list *)

Lemma parse_keywords_In (raw k : string) :
  In k (parse_keywords raw) ->
  exists k0, k = PyStr.lower (PyStr.strip k0) /\ PyStr.strip k0 <> EmptyString.
Proof.
  unfold parse_keywords. rewrite in_map_iff.
  intros (k0 & <- & Hin). apply filter_In in Hin as [_ Ht].
  exists k0; split; [reflexivity|].
  now apply PyStrFacts.truthy_nonempty.
Qed.

Lemma matches_empty_title (keywords : list string) :
  (forall k, In k keywords -> k <> EmptyString) ->
  matches keywords EmptyString = false.
Proof.
  intros H. destruct (matches keywords "") eqn:E; [|reflexivity].
  unfold matches in E. apply existsb_exists in E as (k & Hin & Hk).
  simpl in Hk. apply PyStrFacts.contains_empty_hay in Hk.
  now apply H in Hin.
Qed.

(** C10. Every keyword of the list parsed at load is a non-empty string
    whose first and last characters are not white space; so a record whose
    normalized title is the empty string is never appended by the loop
    when the keyword list comes from this parsing. *)
Theorem parsed_keywords_trimmed_nonempty (raw : string) :
  (forall k, In k (parse_keywords raw) ->
     k <> EmptyString
     /\ (forall c, PyStr.first k = Some c -> PyStr.isspace c = false)
     /\ (forall c, PyStr.last k = Some c -> PyStr.isspace c = false))
  /\ matches (parse_keywords raw) EmptyString = false
  /\ (forall j p results,
        normalize j = Ok p -> title p = EmptyString ->
        loop_body (parse_keywords raw) j results = Ok results).
Proof.
  assert (Hne : forall k, In k (parse_keywords raw) -> k <> EmptyString).
  { intros k Hk. apply parse_keywords_In in Hk as (k0 & -> & Hk0).
    intros H. now apply PyStrFacts.lower_empty in H. }
  split; [|split].
  - intros k Hk. split; [now apply Hne|].
    apply parse_keywords_In in Hk as (k0 & -> & _).
    split; intros c Hc.
    + rewrite PyStrFacts.first_lower in Hc.
      destruct (PyStr.first (PyStr.strip k0)) as [c0|] eqn:E; [|discriminate].
      injection Hc as <-. rewrite PyStrFacts.isspace_lower_char.
      apply (PyStrFacts.strip_ends k0). now left.
    + rewrite PyStrFacts.last_lower in Hc.
      destruct (PyStr.last (PyStr.strip k0)) as [c0|] eqn:E; [|discriminate].
      injection Hc as <-. rewrite PyStrFacts.isspace_lower_char.
      apply (PyStrFacts.strip_ends k0). now right.
  - now apply matches_empty_title.
  - intros j p results Hj Ht.
    rewrite (loop_body_normalized _ _ _ _ Hj), Ht.
    now rewrite matches_empty_title.
Qed.

Lemma parsed_keywords_trimmed_nonempty_witness :
  parse_keywords "  Data Engineer , ,intern" = ["data engineer"; "intern"] /\
  In "data engineer" (parse_keywords "  Data Engineer , ,intern") /\
  "data engineer" <> EmptyString /\
  matches (parse_keywords "  Data Engineer , ,intern") EmptyString = false.
Proof.
  split; [reflexivity|].
  split; [left; reflexivity|].
  pose proof (parsed_keywords_trimmed_nonempty "  Data Engineer , ,intern") as [Hk [Hm _]].
  split; [|exact Hm].
  exact (proj1 (Hk "data engineer" (or_introl eq_refl))).
Defined.

(** ** Running the script *)

Ltac run_monad :=
  unfold bind, ret, raise, sys_exit, print, emit, lift, try_except, read_clock;
  simpl.

Lemma truthy_and (a b : option string) :
  Py.truthy_opt (Py.and a b) = Py.truthy_opt a && Py.truthy_opt b.
Proof. unfold Py.and. now destruct (Py.truthy_opt a) eqn:E; simpl. Qed.

Lemma status_eq (w : world) (cfg : config) :
  status w cfg = exit_status (fst (main w cfg initial)).
Proof. unfold status, run. now destruct (main w cfg initial). Qed.

Lemma trace_eq (w : world) (cfg : config) :
  trace w cfg = out (snd (main w cfg initial)).
Proof. unfold trace, run. now destruct (main w cfg initial). Qed.

(** [local_now] reads the clock once, or raises when the zone is unknown. *)
Lemma local_now_eq (w : world) (cfg : config) (s : state) :
  local_now w cfg s =
  match zone w cfg with
  | Some offset_at =>
      (Ok (mk_datetime (clock w (ticks s)) (offset_at (clock w (ticks s)))
                       (zoneinfo_imported w)),
       mk_state (S (ticks s)) (out s))
  | None => (Raise (ZoneInfoNotFoundError (TIMEZONE cfg)), s)
  end.
Proof.
  unfold local_now, zone.
  destruct (zoneinfo_imported w); [destruct (tzdata w (TIMEZONE cfg))|]; reflexivity.
Qed.

Lemma local_now_inv (w : world) (cfg : config) (s s' : state) (now : datetime) :
  local_now w cfg s = (Ok now, s') ->
  (exists offset_at, zone w cfg = Some offset_at)
  /\ s' = mk_state (S (ticks s)) (out s).
Proof.
  rewrite local_now_eq. destruct (zone w cfg) as [f|]; [|discriminate].
  intros [= _ <-]. split; [now exists f | reflexivity].
Qed.

Lemma is_target_time_eq (w : world) (cfg : config) (s : state) :
  is_target_time w cfg s =
  match local_now w cfg s with
  | (Ok now, s') =>
      (Ok (Calendar.hour now =? TARGET_HOUR cfg),
       mk_state (ticks s') (out s' ++ [Console (LogLocalTime (TIMEZONE cfg) now)])%list)
  | (Raise e, s') => (Raise e, s')
  | (SysExit c, s') => (SysExit c, s')
  end.
Proof.
  unfold is_target_time, bind at 1.
  destruct (local_now w cfg s) as [[now|e|c] s']; reflexivity.
Qed.

Lemma is_target_time_zone (w : world) (cfg : config) (s s' : state) (gate : bool) :
  is_target_time w cfg s = (Ok gate, s') ->
  exists offset_at, zone w cfg = Some offset_at.
Proof.
  rewrite is_target_time_eq, local_now_eq.
  destruct (zone w cfg) as [f|]; [|discriminate].
  now exists f.
Qed.

Lemma hour_range (t : datetime) : 0 <= Calendar.hour t <= 23.
Proof.
  unfold Calendar.hour.
  pose proof (Z.mod_pos_bound (Calendar.wall_seconds t / 3600) 24). lia.
Qed.

(** The fetch: one GET, then the handler or the loop. *)
Lemma fetch_jobs_eq (w : world) (cfg : config) (s : state) :
  let get := HttpGet (REMOTEOK_API cfg) "Mozilla/5.0" 15 in
  fetch_jobs w cfg s =
  match fetch_outcome w with
  | inl e =>
      (Ok [], mk_state (ticks s) ((out s ++ [get]) ++ [Console (LogFetchFailed e)])%list)
  | inr jobs =>
      (select (KEYWORDS cfg) jobs, mk_state (ticks s) (out s ++ [get])%list)
  end.
Proof.
  unfold fetch_jobs, fetch_outcome, requests_get, raise_for_status, resp_json.
  run_monad.
  destruct (http w) as [msg|resp]; simpl; [reflexivity|].
  destruct ((400 <=? status_code resp) && (status_code resp <? 600)); simpl;
    [reflexivity|].
  destruct (body resp) as [msg|v]; reflexivity.
Qed.

Lemma fetch_failure_outcome (w : world) (e : exn) :
  fetch_failure w e <-> fetch_outcome w = inl e.
Proof.
  unfold fetch_outcome. split.
  - intros [msg H | resp H Hs | resp msg H Hs Hb]; rewrite H.
    + reflexivity.
    + replace ((400 <=? status_code resp) && (status_code resp <? 600)) with true
        by (symmetry; apply andb_true_intro; split; [apply Z.leb_le | apply Z.ltb_lt]; lia).
      reflexivity.
    + destruct ((400 <=? status_code resp) && (status_code resp <? 600)) eqn:E.
      * apply andb_prop in E as [E1 E2].
        apply Z.leb_le in E1. apply Z.ltb_lt in E2. lia.
      * now rewrite Hb.
  - destruct (http w) as [msg|resp] eqn:H.
    + intros [= <-]. now constructor.
    + destruct ((400 <=? status_code resp) && (status_code resp <? 600)) eqn:E.
      * intros [= <-]. apply andb_prop in E as [E1 E2].
        apply Z.leb_le in E1. apply Z.ltb_lt in E2.
        now apply bad_status.
      * destruct (body resp) as [msg|v] eqn:Hb; [|discriminate].
        intros [= <-]. apply (parse_failure w resp msg); trivial.
        intros [H1 H2]. apply Z.leb_le in H1. apply Z.ltb_lt in H2.
        now rewrite H1, H2 in E.
Qed.

Lemma fetch_parsed_outcome (w : world) (jobs : json) :
  fetch_parsed w jobs <-> fetch_outcome w = inr jobs.
Proof.
  unfold fetch_parsed, fetch_outcome. split.
  - intros (resp & H & Hs & Hb). rewrite H.
    destruct ((400 <=? status_code resp) && (status_code resp <? 600)) eqn:E.
    + apply andb_prop in E as [E1 E2].
      apply Z.leb_le in E1. apply Z.ltb_lt in E2. lia.
    + now rewrite Hb.
  - destruct (http w) as [msg|resp] eqn:H; [discriminate|].
    destruct ((400 <=? status_code resp) && (status_code resp <? 600)) eqn:E;
      [discriminate|].
    destruct (body resp) as [msg|v] eqn:Hb; [discriminate|].
    intros [= <-]. exists resp. repeat split; trivial.
    intros [H1 H2]. apply Z.leb_le in H1. apply Z.ltb_lt in H2.
    now rewrite H1, H2 in E.
Qed.

(** *** Encoding the message *)

Lemma no_ed_byte_app (s t : string) :
  no_ed_byte (s ++ t) = no_ed_byte s && no_ed_byte t.
Proof.
  unfold no_ed_byte, chars.
  induction s as [|a s IH]; [reflexivity|].
  cbn [append list_ascii_of_string forallb]. rewrite IH. apply andb_assoc.
Qed.

(** A string without the byte ED encodes. *)
Lemma no_ed_byte_encodes (s : string) :
  no_ed_byte s = true -> PyStr.has_surrogate s = false.
Proof.
  unfold no_ed_byte, chars.
  induction s as [|a s IH]; [reflexivity|].
  cbn [list_ascii_of_string forallb]. intros H.
  apply andb_prop in H as [Ha Hs].
  destruct s as [|b s]; [reflexivity|].
  change (PyStr.has_surrogate (String a (String b s)))
    with (PyStr.surrogate_start a b || PyStr.has_surrogate (String b s)).
  rewrite (IH Hs). unfold PyStr.surrogate_start.
  apply negb_true_iff in Ha. now rewrite Ha.
Qed.

Lemma ascii_only_no_ed_byte (s : string) :
  ascii_only s = true -> no_ed_byte s = true.
Proof.
  unfold ascii_only, no_ed_byte. generalize (chars s) as l.
  induction l as [|c l IH]; [reflexivity|].
  cbn [forallb]. intros H. apply andb_prop in H as [Hc Hl].
  rewrite (IH Hl), andb_true_r. apply negb_true_iff.
  apply Nat.ltb_lt in Hc. apply Nat.eqb_neq. lia.
Qed.

Lemma no_ed_byte_digit (n : Z) : no_ed_byte (Calendar.digit n) = true.
Proof.
  unfold Calendar.digit.
  pose proof (Z.mod_pos_bound n 10 ltac:(lia)) as H.
  assert (Hk : (Z.to_nat (n mod 10) < 10)%nat) by lia.
  revert Hk. generalize (Z.to_nat (n mod 10)) as k. clear H. intros k Hk.
  do 10 (destruct k as [|k]; [reflexivity|]). lia.
Qed.

Lemma no_ed_byte_isoformat (d : Z * Z * Z) : no_ed_byte (Calendar.isoformat d) = true.
Proof.
  destruct d as [[y m] dd]. unfold Calendar.isoformat.
  rewrite !no_ed_byte_app, !no_ed_byte_digit. reflexivity.
Qed.

Lemma no_ed_byte_subject (now : datetime) : no_ed_byte (email_subject now) = true.
Proof.
  unfold email_subject. rewrite no_ed_byte_app, no_ed_byte_isoformat. reflexivity.
Qed.

Lemma no_ed_byte_concat (sep : string) (parts : list string) :
  no_ed_byte sep = true ->
  Forall (fun x => no_ed_byte x = true) parts ->
  no_ed_byte (String.concat sep parts) = true.
Proof.
  intros Hsep. induction 1 as [|x parts Hx Hparts IH]; [reflexivity|].
  destruct parts as [|y parts]; [exact Hx|].
  change (String.concat sep (x :: y :: parts))
    with (x ++ sep ++ String.concat sep (y :: parts)).
  now rewrite !no_ed_byte_app, Hx, Hsep, IH.
Qed.

Lemma no_ed_byte_body (w : world) (jobs : list posting) :
  Forall (fun p => no_ed_byte (block w p) = true) jobs ->
  no_ed_byte (email_body w jobs) = true.
Proof.
  intros H. destruct jobs as [|p jobs]; [reflexivity|].
  unfold email_body, PyStr.join. apply no_ed_byte_concat; [reflexivity|].
  apply Forall_map. exact H.
Qed.

(** The message encodes when its body holds no byte ED; the subject never
    does. *)
Lemma message_encodes (w : world) (now : datetime) (jobs : list posting) :
  no_ed_byte (email_body w jobs) = true ->
  PyStr.has_surrogate (message w now jobs) = false.
Proof.
  intros H. apply no_ed_byte_encodes. unfold message.
  now rewrite !no_ed_byte_app, no_ed_byte_subject, H.
Qed.

(** The message for no posting always encodes. *)
Lemma empty_message_encodes (w : world) (now : datetime) :
  PyStr.has_surrogate (message w now []) = false.
Proof. now apply message_encodes. Qed.

(** *** The send *)

(** The trace [send_email] adds, for any outcome of the session. *)
Lemma send_email_trace
        (w : world) (cfg : config) (jobs : list posting)
        (s s1 : state) (now : datetime)
        (Hnow : local_now w cfg s = (Ok now, s1)) :
  send_email w cfg jobs s =
  (Ok tt,
   mk_state (ticks s1)
     (out s1
        ++ fst (session w cfg (message w now jobs))
        ++ [Console (closing_line cfg jobs
                       (snd (session w cfg (message w now jobs))))])%list).
Proof.
  unfold send_email, bind at 1. rewrite Hnow. cbv zeta.
  fold (message w now jobs). generalize (message w now jobs) as msg. intros msg.
  unfold session, smtp, encode_utf8. run_monad.
  destruct (smtp_error w Connect); simpl;
    [now rewrite <- ?app_assoc|].
  destruct (smtp_error w Starttls); simpl;
    [now rewrite <- ?app_assoc|].
  destruct (smtp_error w Login); simpl;
    [now rewrite <- ?app_assoc|].
  destruct (PyStr.encode msg) as [bytes|]; simpl;
    [|now rewrite <- ?app_assoc].
  destruct (smtp_error w Sendmail); simpl;
    [now rewrite <- ?app_assoc|].
  destruct (smtp_error w Quit); simpl; now rewrite <- ?app_assoc.
Qed.

(** What the session leaves when the calls up to the login go through and
    the message encodes: [sendmail] is called with the message. *)
Lemma session_reaches_sendmail (w : world) (cfg : config) (msg : string) :
  smtp_reaches_sendmail w -> PyStr.has_surrogate msg = false ->
  In (SmtpSendmail (SENDER_EMAIL cfg) (RECEIVER_EMAIL cfg) msg)
     (fst (session w cfg msg)).
Proof.
  intros (Hc & Ht & Hl) He. unfold session, PyStr.encode.
  cbn [attempted opening_calls]. rewrite Hc, Ht, Hl, He.
  cbn [attempted closing_calls].
  destruct (smtp_error w Sendmail); [simpl; tauto|].
  destruct (smtp_error w Quit); simpl; tauto.
Qed.

(** The SMTP session of [send_email]: it ends by returning, whatever the
    server does, and a message that encodes is handed to [sendmail] when
    the calls up to the login go through. *)
Lemma send_email_at (w : world) (cfg : config) (jobs : list posting)
      (s s1 : state) (now : datetime) :
  local_now w cfg s = (Ok now, s1) ->
  exists s',
    send_email w cfg jobs s = (Ok tt, s')
    /\ (smtp_reaches_sendmail w ->
        PyStr.has_surrogate (message w now jobs) = false ->
        In (SmtpSendmail (SENDER_EMAIL cfg) (RECEIVER_EMAIL cfg) (message w now jobs))
           (out s')).
Proof.
  intros Hnow. rewrite (send_email_trace w cfg jobs s s1 now Hnow).
  eexists. split; [reflexivity|]. intros Hsmtp He. cbn [out].
  rewrite !in_app_iff. right; left. now apply session_reaches_sendmail.
Qed.

(** [send_email] catches whatever the SMTP session raises. *)
Lemma send_email_returns (w : world) (cfg : config) (jobs : list posting) (s : state) :
  (exists offset_at, zone w cfg = Some offset_at) ->
  exists s', send_email w cfg jobs s = (Ok tt, s').
Proof.
  intros [f Hz].
  destruct (send_email_at w cfg jobs s
              (mk_state (S (ticks s)) (out s))
              (mk_datetime (clock w (ticks s)) (f (clock w (ticks s)))
                           (zoneinfo_imported w))) as (s' & H & _).
  - now rewrite local_now_eq, Hz.
  - now exists s'.
Qed.

Lemma main_secrets_absent (w : world) (cfg : config) :
  absent (SENDER_EMAIL cfg) \/ absent (SENDER_PASSWORD cfg) ->
  main w cfg initial = (SysExit 1, mk_state 0 [Console LogSecretsMissing]).
Proof.
  unfold absent, main. rewrite truthy_and.
  intros [H|H]; rewrite H; [|rewrite andb_false_r]; reflexivity.
Qed.

Lemma main_secrets_present (w : world) (cfg : config) :
  present (SENDER_EMAIL cfg) -> present (SENDER_PASSWORD cfg) ->
  main w cfg initial =
  match is_target_time w cfg initial with
  | (Ok true, s1) => (jobs <- fetch_jobs w cfg ;; send_email w cfg jobs) s1
  | (Ok false, s1) =>
      (Ok tt, mk_state (ticks s1) (out s1 ++ [Console LogNotTargetHour])%list)
  | (Raise e, s1) => (Raise e, s1)
  | (SysExit c, s1) => (SysExit c, s1)
  end.
Proof.
  unfold present, main. rewrite truthy_and. intros -> ->. simpl.
  unfold bind at 1.
  destruct (is_target_time w cfg initial) as [[[]|e|c] s1]; reflexivity.
Qed.

(** C3. If the sender address or the sender credential is absent (unset,
    or set to the empty string), the process ends with exit status 1 and
    its whole trace is the one error line: no HTTP fetch and no SMTP call
    was made. *)
Theorem missing_secret_exits_1_before_network
        (w : world) (cfg : config)
        (Hmissing : absent (SENDER_EMAIL cfg) \/ absent (SENDER_PASSWORD cfg)) :
  status w cfg = 1
  /\ trace w cfg = [Console LogSecretsMissing]
  /\ network_calls w cfg = [].
Proof.
  unfold network_calls.
  rewrite status_eq, trace_eq, (main_secrets_absent _ _ Hmissing).
  now repeat split.
Qed.

Lemma missing_secret_exits_1_before_network_witness :
  SENDER_EMAIL no_password_config = Some "me@example.org"
  /\ SENDER_PASSWORD no_password_config = None
  /\ status good_world no_password_config = 1
  /\ network_calls good_world no_password_config = [].
Proof.
  split; [reflexivity|]. split; [reflexivity|].
  pose proof (missing_secret_exits_1_before_network
                good_world no_password_config (or_intror eq_refl)) as (H1 & _ & H3).
  now split.
Defined.

(** A run off the target hour: two lines on the console, nothing else. *)
Lemma off_target_hour_run
        (w : world) (cfg : config) (now : datetime) (s1 : state)
        (Hnow : local_now w cfg initial = (Ok now, s1))
        (Hhour : Calendar.hour now <> TARGET_HOUR cfg) :
  network_calls w cfg = []
  /\ (present (SENDER_EMAIL cfg) -> present (SENDER_PASSWORD cfg) ->
      status w cfg = 0
      /\ trace w cfg = [Console (LogLocalTime (TIMEZONE cfg) now);
                        Console LogNotTargetHour]).
Proof.
  assert (Hrun : present (SENDER_EMAIL cfg) -> present (SENDER_PASSWORD cfg) ->
                 main w cfg initial =
                 (Ok tt, mk_state (ticks s1)
                                  [Console (LogLocalTime (TIMEZONE cfg) now);
                                   Console LogNotTargetHour])).
  { intros Ha Hb. rewrite (main_secrets_present _ _ Ha Hb).
    rewrite is_target_time_eq, Hnow.
    apply Z.eqb_neq in Hhour. rewrite Hhour.
    apply local_now_inv in Hnow as [_ ->]. reflexivity. }
  split.
  - unfold network_calls. rewrite trace_eq.
    destruct (Py.truthy_opt (SENDER_EMAIL cfg)) eqn:Ha;
      [destruct (Py.truthy_opt (SENDER_PASSWORD cfg)) eqn:Hb|].
    + now rewrite (Hrun Ha Hb).
    + now rewrite main_secrets_absent by (right; exact Hb).
    + now rewrite main_secrets_absent by (left; exact Ha).
  - intros Ha Hb. rewrite status_eq, trace_eq, (Hrun Ha Hb). now split.
Qed.


(** C5. In every run where the local hour [local_now] computes differs
    from the target hour, no network call occurs; with both secrets
    present the run prints the local time and the line saying it is not
    the target hour, and exits with status 0. *)
Theorem no_network_call_off_target_hour
        (w : world) (cfg : config) (now : datetime) (s1 : state)
        (Hnow : local_now w cfg initial = (Ok now, s1))
        (Hhour : Calendar.hour now <> TARGET_HOUR cfg) :
  network_calls w cfg = []
  /\ (present (SENDER_EMAIL cfg) -> present (SENDER_PASSWORD cfg) ->
      status w cfg = 0
      /\ trace w cfg = [Console (LogLocalTime (TIMEZONE cfg) now);
                        Console LogNotTargetHour]).
Proof. exact (off_target_hour_run w cfg now s1 Hnow Hhour). Qed.

Lemma no_network_call_off_target_hour_witness :
  Calendar.hour (mk_datetime 1793713600 (-21600) true) = 7
  /\ TARGET_HOUR sample_config = 12
  /\ network_calls morning_world sample_config = []
  /\ status morning_world sample_config = 0.
Proof.
  split; [reflexivity|]. split; [reflexivity|].
  destruct (no_network_call_off_target_hour
              morning_world sample_config
              (mk_datetime 1793713600 (-21600) true) (mk_state 1 [])
              eq_refl ltac:(discriminate)) as [Hnet Hrun].
  split; [exact Hnet|].
  exact (proj1 (Hrun eq_refl eq_refl)).
Defined.

(** With both secrets and the gate open, the run is the fetch followed by
    the send. *)
Lemma main_gate_open (w : world) (cfg : config) (s1 : state) :
  present (SENDER_EMAIL cfg) -> present (SENDER_PASSWORD cfg) ->
  is_target_time w cfg initial = (Ok true, s1) ->
  main w cfg initial = (jobs <- fetch_jobs w cfg ;; send_email w cfg jobs) s1.
Proof.
  intros Ha Hb Hgate. now rewrite (main_secrets_present _ _ Ha Hb), Hgate.
Qed.

(** C2. When the GET raises, or the answer has a status from 400 to 599,
    or its body does not parse, [fetch_jobs] catches the exception: after
    the GET it prints the failure and returns the empty list.  With both
    secrets present and the gate open, the run then goes on to
    [send_email] with that empty list, whose body is the sentence "No
    matching jobs found today."; the message is handed to [sendmail]
    whenever the SMTP session gets that far, and the process exits with
    status 0. *)
Theorem fetch_failure_yields_empty_list
        (w : world) (cfg : config) (e : exn)
        (Hfail : fetch_failure w e) :
  (forall s,
      fetch_jobs w cfg s =
      (Ok [], mk_state (ticks s)
                       ((out s ++ [HttpGet (REMOTEOK_API cfg) "Mozilla/5.0" 15])
                          ++ [Console (LogFetchFailed e)])%list))
  /\ (forall s1,
        present (SENDER_EMAIL cfg) -> present (SENDER_PASSWORD cfg) ->
        is_target_time w cfg initial = (Ok true, s1) ->
        exists s2 now s3,
          fetch_jobs w cfg s1 = (Ok [], s2)
          /\ main w cfg initial = send_email w cfg [] s2
          /\ local_now w cfg s2 = (Ok now, s3)
          /\ message w now [] =
             "Subject: " ++ email_subject now ++ PyStr.nl ++ PyStr.nl
                         ++ "No matching jobs found today."
          /\ (smtp_reaches_sendmail w ->
              In (SmtpSendmail (SENDER_EMAIL cfg) (RECEIVER_EMAIL cfg) (message w now []))
                 (trace w cfg))
          /\ status w cfg = 0).
Proof.
  apply fetch_failure_outcome in Hfail.
  assert (Hfetch : forall s,
             fetch_jobs w cfg s =
             (Ok [], mk_state (ticks s)
                              ((out s ++ [HttpGet (REMOTEOK_API cfg) "Mozilla/5.0" 15])
                                 ++ [Console (LogFetchFailed e)])%list)).
  { intros s. pose proof (fetch_jobs_eq w cfg s) as H. cbv zeta in H.
    now rewrite Hfail in H. }
  split; [exact Hfetch|].
  intros s1 Ha Hb Hgate.
  destruct (is_target_time_zone _ _ _ _ _ Hgate) as [f Hz].
  set (s2 := mk_state (ticks s1)
                      ((out s1 ++ [HttpGet (REMOTEOK_API cfg) "Mozilla/5.0" 15])
                         ++ [Console (LogFetchFailed e)])%list).
  set (now := mk_datetime (clock w (ticks s2)) (f (clock w (ticks s2)))
                          (zoneinfo_imported w)).
  assert (Hnow : local_now w cfg s2 = (Ok now, mk_state (S (ticks s2)) (out s2)))
    by now rewrite local_now_eq, Hz.
  assert (Hmain : main w cfg initial = send_email w cfg [] s2).
  { rewrite (main_gate_open _ _ _ Ha Hb Hgate). unfold bind at 1.
    now rewrite Hfetch. }
  destruct (send_email_at w cfg [] _ _ _ Hnow) as (s' & Hsend & Hmsg).
  exists s2, now, (mk_state (S (ticks s2)) (out s2)).
  split; [apply Hfetch|]. split; [exact Hmain|]. split; [exact Hnow|].
  split; [reflexivity|].
  rewrite status_eq, trace_eq, Hmain, Hsend.
  split; [intros Hsmtp; exact (Hmsg Hsmtp (empty_message_encodes w now)) | reflexivity].
Qed.

Lemma fetch_failure_yields_empty_list_witness :
  fetch_failure offline_world (RequestException "connection refused")
  /\ fst (fetch_jobs offline_world sample_config initial) = Ok []
  /\ status offline_world sample_config = 0.
Proof.
  assert (Hfail : fetch_failure offline_world (RequestException "connection refused"))
    by now constructor.
  split; [exact Hfail|].
  destruct (fetch_failure_yields_empty_list offline_world sample_config _ Hfail)
    as [Hfetch Hrun].
  split; [now rewrite Hfetch|].
  destruct (Hrun (mk_state 1 [Console (LogLocalTime "America/Chicago"
                                         (mk_datetime 1793730600 (-21600) true))])
                 eq_refl eq_refl eq_refl)
    as (s2 & now & s3 & _ & _ & _ & _ & _ & Hstatus).
  exact Hstatus.
Defined.

(** ** The filter, on records and on whole feeds *)

(** C1. For every keyword list, a title matches if and only if some
    keyword is a substring of the lowercased title.  For every record of
    the feed that normalizes to a posting, one turn of the loop of
    [fetch_jobs] appends the posting to [results] if and only if its title
    matches, and leaves [results] as it was otherwise.  Over a whole
    feed, whenever the loop returns, a posting is in the list it returns if
    and only if it is the posting of an element after the first and its
    title matches; when every element after the first normalizes the loop
    does return, with exactly the matching postings in the order of the
    feed, and that list is what [fetch_jobs] returns.  With an empty
    keyword list no record is appended, and whatever the feed, the list
    built from it is empty. *)
Theorem filter_retains_iff_keyword_in_title
        (keywords : list string) (j : json) (p : posting) (results : list posting)
        (Hj : normalize j = Ok p) :
  (loop_body keywords j results = Ok (results ++ [p])%list <->
   exists k, In k keywords /\ substring_of k (PyStr.lower (title p)))
  /\ (loop_body keywords j results = Ok results <->
      ~ exists k, In k keywords /\ substring_of k (PyStr.lower (title p)))
  /\ loop_body [] j results = Ok results
  /\ (forall jobs r, select [] jobs = Ok r -> r = [])
  /\ (forall t,
        matches keywords t = true <->
        exists k, In k keywords /\ substring_of k (PyStr.lower t))
  /\ (forall l r,
        select keywords (JArr l) = Ok r ->
        forall q,
          In q r <->
          (exists j', In j' (tl l) /\ normalize j' = Ok q)
          /\ exists k, In k keywords /\ substring_of k (PyStr.lower (title q)))
  /\ (forall l ps,
        Forall2 (fun j' q => normalize j' = Ok q) (tl l) ps ->
        select keywords (JArr l) =
        Ok (filter (fun q => matches keywords (title q)) ps))
  /\ (forall w cfg s l ps,
        fetch_parsed w (JArr l) ->
        Forall2 (fun j' q => normalize j' = Ok q) (tl l) ps ->
        fst (fetch_jobs w cfg s) =
        Ok (filter (fun q => matches (KEYWORDS cfg) (title q)) ps))
  /\ (forall w cfg s l r,
        fetch_parsed w (JArr l) ->
        fst (fetch_jobs w cfg s) = Ok r ->
        forall q,
          In q r <->
          (exists j', In j' (tl l) /\ normalize j' = Ok q)
          /\ exists k, In k (KEYWORDS cfg) /\ substring_of k (PyStr.lower (title q))).
Proof.
  assert (Hlist : forall kws l r,
             select kws (JArr l) = Ok r ->
             forall q,
               In q r <->
               (exists j', In j' (tl l) /\ normalize j' = Ok q)
               /\ exists k, In k kws /\ substring_of k (PyStr.lower (title q))).
  { intros kws l r Hsel q. unfold select in Hsel. simpl in Hsel.
    apply for_each_inv in Hsel as (ps & Hps & ->). simpl.
    rewrite filter_In, matches_spec. split.
    - intros [Hin Hm]. split; [|exact Hm].
      destruct (Forall2_In_r _ _ _ _ Hps Hin) as (j' & Hj' & Hn). eauto.
    - intros [(j' & Hj' & Hn) Hm]. split; [|exact Hm].
      clear - Hps Hj' Hn. induction Hps as [|a b l' ps' Hab _ IH]; [destruct Hj'|].
      destruct Hj' as [<- | Hj']; [left; congruence | right; auto]. }
  assert (Hall : forall kws l ps,
             Forall2 (fun j' q => normalize j' = Ok q) (tl l) ps ->
             select kws (JArr l) = Ok (filter (fun q => matches kws (title q)) ps)).
  { intros kws l ps Hps. unfold select. simpl.
    now rewrite (for_each_normalized _ _ _ Hps). }
  split; [|split; [|split; [|split; [|split; [|split; [|split; [|split]]]]]]].
  - rewrite <- matches_spec, (loop_body_normalized _ _ _ _ Hj).
    split.
    + destruct (matches keywords (title p)); [reflexivity|].
      intros [= H]. symmetry in H. now apply snoc_neq in H.
    + now intros ->.
  - rewrite <- matches_spec, (loop_body_normalized _ _ _ _ Hj).
    split.
    + destruct (matches keywords (title p)); [|congruence].
      intros [= H] _. now apply snoc_neq in H.
    + intros H. destruct (matches keywords (title p)); [now destruct H | reflexivity].
  - now rewrite (loop_body_normalized _ _ _ _ Hj).
  - intros jobs r. unfold select.
    destruct (slice_from_1 jobs) as [js| |]; simpl; try discriminate.
    apply for_each_no_keyword.
  - apply matches_spec.
  - apply Hlist.
  - apply Hall.
  - intros w cfg s l ps Hparsed Hps. apply fetch_parsed_outcome in Hparsed.
    pose proof (fetch_jobs_eq w cfg s) as H. cbv zeta in H.
    rewrite Hparsed in H. rewrite H. cbn [fst]. now apply Hall.
  - intros w cfg s l r Hparsed Hr. apply fetch_parsed_outcome in Hparsed.
    pose proof (fetch_jobs_eq w cfg s) as H. cbv zeta in H.
    rewrite Hparsed in H. rewrite H in Hr. cbn [fst] in Hr. now apply Hlist.
Qed.

Lemma filter_retains_iff_keyword_in_title_witness :
  normalize sample_record = Ok sample_posting
  /\ (loop_body ["intern"; "data engineer"] sample_record [] = Ok [sample_posting] <->
      exists k, In k ["intern"; "data engineer"] /\
                substring_of k (PyStr.lower (title sample_posting)))
  /\ select ["intern"; "data engineer"] sample_feed = Ok [sample_posting]
  /\ fst (fetch_jobs good_world sample_config initial) = Ok [sample_posting].
Proof.
  split; [reflexivity|].
  destruct (filter_retains_iff_keyword_in_title
              ["intern"; "data engineer"] sample_record sample_posting [] eq_refl)
    as (Hturn & _ & _ & _ & _ & _ & Hsel & Hfetch & _).
  split; [exact Hturn|]. split.
  - apply (Hsel [JObj [("legal", JStr "terms of the feed")];
                 sample_record;
                 JObj [("position", JStr "Chef"); ("company", JStr "Bistro")]]
                [sample_posting; mk_posting "Chef" "Bistro" (JStr "")]).
    repeat constructor.
  - apply (Hfetch good_world sample_config initial
                  [JObj [("legal", JStr "terms of the feed")];
                   sample_record;
                   JObj [("position", JStr "Chef"); ("company", JStr "Bistro")]]
                  [sample_posting; mk_posting "Chef" "Bistro" (JStr "")]).
    + exists (mk_response 200 (inr sample_feed)). repeat split; simpl; lia.
    + repeat constructor.
Defined.

(** ** Feeds of the expected shape *)

Lemma well_formed_normalize (j : json) :
  well_formed j = true <-> exists p, normalize j = Ok p.
Proof.
  destruct j as [| | | | |l|d]; simpl;
    try (split; [discriminate | intros [p H]; discriminate]).
  destruct (Py.or (Py.get d "position") (Py.or (Py.get d "title") (JStr "")));
    simpl; try (split; [discriminate | intros [p H]; discriminate]).
  destruct (Py.get_default d "company" (JStr "")); simpl;
    try (split; [discriminate | intros [p H]; discriminate]).
  split; [eauto | reflexivity].
Qed.

Lemma well_formed_all (js : list json) :
  forallb well_formed js = true ->
  exists ps, Forall2 (fun j p => normalize j = Ok p) js ps.
Proof.
  induction js as [|j js IH]; simpl; intros H.
  - exists []. constructor.
  - apply andb_prop in H as [Hj Hjs].
    apply well_formed_normalize in Hj as [p Hp].
    destruct (IH Hjs) as [ps Hps].
    exists (p :: ps). now constructor.
Qed.

(** On a feed of the expected shape the loop raises nothing. *)
Lemma select_well_shaped (keywords : list string) (jobs : json) :
  well_shaped jobs = true -> exists ps, select keywords jobs = Ok ps.
Proof.
  destruct jobs as [| | | | |l|d]; simpl; try discriminate.
  intros H. apply well_formed_all in H as [ps Hps].
  unfold select. simpl. rewrite (for_each_normalized _ _ _ Hps). eauto.
Qed.

(** ** The exit status *)

(** The status of a run that has both secrets and an open gate, once the
    list [fetch_jobs] returns is known. *)
Lemma status_after_fetch (w : world) (cfg : config) (s1 s2 : state) (jobs : list posting) :
  present (SENDER_EMAIL cfg) -> present (SENDER_PASSWORD cfg) ->
  is_target_time w cfg initial = (Ok true, s1) ->
  fetch_jobs w cfg s1 = (Ok jobs, s2) ->
  status w cfg = 0.
Proof.
  intros Ha Hb Hgate Hfetch.
  rewrite status_eq, (main_gate_open _ _ _ Ha Hb Hgate). unfold bind at 1.
  rewrite Hfetch.
  destruct (send_email_returns w cfg jobs s2 (is_target_time_zone _ _ _ _ _ Hgate))
    as [s' ->].
  reflexivity.
Qed.

(** C4, as the code has it. With both secrets present and a time zone the
    host can resolve (the gate returns), the process exits with status 0
    when the hour is not the target hour, when the fetch fails, and when
    the fetch succeeds with a feed of the expected shape (a list whose
    elements after the first are dicts with str title and company), whatever
    the SMTP server then does. *)
Theorem exit_zero_when_secrets_present
        (w : world) (cfg : config) (gate : bool) (s1 : state)
        (Hsender : present (SENDER_EMAIL cfg))
        (Hpassword : present (SENDER_PASSWORD cfg))
        (Hgate : is_target_time w cfg initial = (Ok gate, s1)) :
  (gate = false -> status w cfg = 0)
  /\ (forall e, fetch_failure w e -> status w cfg = 0)
  /\ (forall jobs, fetch_parsed w jobs -> well_shaped jobs = true -> status w cfg = 0).
Proof.
  assert (Hclosed : gate = false -> status w cfg = 0).
  { intros ->. now rewrite status_eq, (main_secrets_present _ _ Hsender Hpassword), Hgate. }
  split; [exact Hclosed|].
  destruct gate; [|now split; intros; apply Hclosed].
  split.
  - intros e He. apply fetch_failure_outcome in He.
    pose proof (fetch_jobs_eq w cfg s1) as H. cbv zeta in H. rewrite He in H.
    exact (status_after_fetch _ _ _ _ _ Hsender Hpassword Hgate H).
  - intros jobs Hjobs Hshape. apply fetch_parsed_outcome in Hjobs.
    destruct (select_well_shaped (KEYWORDS cfg) jobs Hshape) as [ps Hps].
    pose proof (fetch_jobs_eq w cfg s1) as H. cbv zeta in H.
    rewrite Hjobs, Hps in H.
    exact (status_after_fetch _ _ _ _ _ Hsender Hpassword Hgate H).
Qed.

Lemma exit_zero_when_secrets_present_witness :
  present (SENDER_EMAIL sample_config)
  /\ present (SENDER_PASSWORD sample_config)
  /\ fst (is_target_time rejected_login_world sample_config initial) = Ok true
  /\ fetch_parsed rejected_login_world sample_feed
  /\ well_shaped sample_feed = true
  /\ status rejected_login_world sample_config = 0.
Proof.
  assert (Hparsed : fetch_parsed rejected_login_world sample_feed).
  { exists (mk_response 200 (inr sample_feed)).
    repeat split; simpl; lia. }
  repeat (split; [first [reflexivity | exact Hparsed]|]).
  refine (proj2 (proj2 (exit_zero_when_secrets_present
                          rejected_login_world sample_config true
                          (mk_state 1 [Console (LogLocalTime "America/Chicago"
                                                  (mk_datetime 1793730600 (-21600) true))])
                          eq_refl eq_refl eq_refl))
                sample_feed Hparsed eq_refl).
Defined.

(** Both secrets are set, the hour is the target hour, and the server
    answers 200 with a JSON object where the script expects a list:
    [jobs[1:]] raises outside the [try], nothing catches it, and the
    process ends with status 1 after the GET and before any SMTP call. *)
Lemma exit_one_with_secrets_present :
  present (SENDER_EMAIL sample_config)
  /\ present (SENDER_PASSWORD sample_config)
  /\ fst (is_target_time object_world sample_config initial) = Ok true
  /\ fst (main object_world sample_config initial) = Raise TypeError
  /\ status object_world sample_config = 1
  /\ network_calls object_world sample_config = [HttpGet "https://remoteok.io/api" "Mozilla/5.0" 15].
Proof. repeat split. Qed.

(** ** Parsing the feed *)

(** C6. Whatever list the fetch parsed, the loop of [fetch_jobs] runs over
    the list without its element at index 0, so the result does not depend
    on that element; a list with fewer than two elements gives no posting;
    every later element is normalized and filtered, in order. *)
Theorem feed_first_element_skipped
        (w : world) (cfg : config) (l : list json)
        (Hparsed : fetch_parsed w (JArr l)) :
  (forall s,
      fetch_jobs w cfg s =
      (for_each (KEYWORDS cfg) (tl l) [],
       mk_state (ticks s) (out s ++ [HttpGet (REMOTEOK_API cfg) "Mozilla/5.0" 15])%list))
  /\ (forall keywords x y rest,
        select keywords (JArr (x :: rest)) = select keywords (JArr (y :: rest)))
  /\ (forall keywords, (List.length l < 2)%nat -> select keywords (JArr l) = Ok [])
  /\ (forall keywords x rest ps,
        Forall2 (fun j p => normalize j = Ok p) rest ps ->
        select keywords (JArr (x :: rest)) =
        Ok (filter (fun p => matches keywords (title p)) ps)).
Proof.
  apply fetch_parsed_outcome in Hparsed.
  split; [|split; [|split]].
  - intros s. pose proof (fetch_jobs_eq w cfg s) as H. cbv zeta in H.
    now rewrite Hparsed in H.
  - reflexivity.
  - intros keywords Hl. destruct l as [|x [|y l']]; simpl in Hl; [reflexivity..|lia].
  - intros keywords x rest ps Hps. unfold select. simpl.
    now rewrite (for_each_normalized _ _ _ Hps).
Qed.

Lemma feed_first_element_skipped_witness :
  fetch_parsed good_world sample_feed
  /\ fst (fetch_jobs good_world sample_config initial) = Ok [sample_posting]
  /\ select ["chef"] (JArr [JNull; sample_record]) = select ["chef"] (JArr [sample_record; sample_record]).
Proof.
  assert (Hparsed : fetch_parsed good_world sample_feed).
  { exists (mk_response 200 (inr sample_feed)). repeat split; simpl; lia. }
  split; [exact Hparsed|].
  destruct (feed_first_element_skipped good_world sample_config _ Hparsed)
    as (Hfetch & Hhead & _).
  split; [now rewrite Hfetch | apply Hhead].
Defined.

(** ** The digest *)

(** C7. For an empty list of postings the body of the email is exactly
    the sentence "No matching jobs found today.", not the empty string,
    and the message [send_email] hands to [sendmail] is the subject
    header, an empty line and that sentence. *)
Theorem empty_list_body_is_no_match_sentence
        (w : world) (cfg : config) (s s1 : state) (now : datetime)
        (Hnow : local_now w cfg s = (Ok now, s1))
        (Hsmtp : smtp_reaches_sendmail w) :
  email_body w [] = "No matching jobs found today."
  /\ email_body w [] <> EmptyString
  /\ In (SmtpSendmail (SENDER_EMAIL cfg) (RECEIVER_EMAIL cfg)
           ("Subject: " ++ email_subject now ++ PyStr.nl ++ PyStr.nl
                        ++ "No matching jobs found today."))
        (out (snd (send_email w cfg [] s))).
Proof.
  split; [reflexivity|]. split; [discriminate|].
  destruct (send_email_at w cfg [] s s1 now Hnow) as (s' & Hsend & Hmsg).
  rewrite Hsend. exact (Hmsg Hsmtp (empty_message_encodes w now)).
Qed.

Lemma empty_list_body_is_no_match_sentence_witness :
  smtp_reaches_sendmail offline_world
  /\ email_body offline_world [] = "No matching jobs found today."
  /\ In (SmtpSendmail (Some "me@example.org") (Some "me@example.org")
           ("Subject: Daily Remote Jobs — 2026-11-03" ++ PyStr.nl ++ PyStr.nl
              ++ "No matching jobs found today."))
        (out (snd (send_email offline_world sample_config [] initial))).
Proof.
  assert (Hsmtp : smtp_reaches_sendmail offline_world) by (repeat split).
  split; [exact Hsmtp|].
  destruct (empty_list_body_is_no_match_sentence
              offline_world sample_config initial (mk_state 1 [])
              (mk_datetime 1793730600 (-21600) true) eq_refl Hsmtp)
    as (Hbody & _ & Hsent).
  split; [exact Hbody | exact Hsent].
Defined.

Lemma matches_In (keywords : list string) (k t : string) :
  In k keywords -> PyStr.contains k (PyStr.lower t) = true ->
  matches keywords t = true.
Proof.
  intros Hin Hk. unfold matches. apply existsb_exists. now exists k.
Qed.

(** C8. The record with position "Junior Data Engineer", company "Acme"
    and url "http://x" normalizes to the posting with these three fields;
    under any keyword list that contains "data engineer" the loop appends
    it, so a feed with that record at index 1 gives exactly this posting;
    its block is the line "Junior Data Engineer at Acme", the line
    "Apply: http://x" and a line feed, and that block is the whole body of
    the email. *)
Theorem sample_record_retained_and_rendered
        (w : world) (keywords : list string)
        (Hk : In "data engineer" keywords) :
  normalize sample_record = Ok sample_posting
  /\ (forall results,
        loop_body keywords sample_record results = Ok (results ++ [sample_posting])%list)
  /\ (forall x, select keywords (JArr [x; sample_record]) = Ok [sample_posting])
  /\ block w sample_posting =
     "Junior Data Engineer at Acme" ++ PyStr.nl ++ "Apply: http://x" ++ PyStr.nl
  /\ email_body w [sample_posting] =
     "Junior Data Engineer at Acme" ++ PyStr.nl ++ "Apply: http://x" ++ PyStr.nl.
Proof.
  assert (Hm : matches keywords (title sample_posting) = true)
    by (apply (matches_In _ _ _ Hk); reflexivity).
  assert (Hloop : forall results,
             loop_body keywords sample_record results = Ok (results ++ [sample_posting])%list).
  { intros results.
    rewrite (loop_body_normalized keywords sample_record sample_posting results eq_refl).
    now rewrite Hm. }
  split; [reflexivity|]. split; [exact Hloop|].
  split; [|split; reflexivity].
  intros x. unfold select. simpl. now rewrite Hloop.
Qed.

Lemma sample_record_retained_and_rendered_witness :
  In "data engineer" (KEYWORDS sample_config)
  /\ select (KEYWORDS sample_config) (JArr [JNull; sample_record]) = Ok [sample_posting]
  /\ email_body good_world [sample_posting] =
     "Junior Data Engineer at Acme" ++ PyStr.nl ++ "Apply: http://x" ++ PyStr.nl.
Proof.
  assert (Hk : In "data engineer" (KEYWORDS sample_config))
    by (simpl; tauto).
  split; [exact Hk|].
  destruct (sample_record_retained_and_rendered good_world _ Hk)
    as (_ & _ & Hsel & _ & Hbody).
  split; [apply Hsel | exact Hbody].
Defined.

(** ** The time gate *)

(** C9. The hour of a local time is always in 0..23, so with a target
    hour outside that range [is_target_time] never returns True: whenever
    [local_now] gives a time, the gate prints it and returns False.  The
    target hour is not validated: with both secrets present such a run
    ends like any run off the target hour, with status 0 and no network
    call. *)
Theorem out_of_range_target_hour_never_matches
        (w : world) (cfg : config)
        (Hrange : TARGET_HOUR cfg < 0 \/ 23 < TARGET_HOUR cfg) :
  (forall t, 0 <= Calendar.hour t <= 23)
  /\ (forall s s', is_target_time w cfg s <> (Ok true, s'))
  /\ (forall s now s1,
        local_now w cfg s = (Ok now, s1) ->
        is_target_time w cfg s =
        (Ok false, mk_state (ticks s1)
                            (out s1 ++ [Console (LogLocalTime (TIMEZONE cfg) now)])%list))
  /\ (forall now s1,
        local_now w cfg initial = (Ok now, s1) ->
        present (SENDER_EMAIL cfg) -> present (SENDER_PASSWORD cfg) ->
        status w cfg = 0 /\ network_calls w cfg = []).
Proof.
  assert (Hne : forall t, (Calendar.hour t =? TARGET_HOUR cfg) = false).
  { intros t. apply Z.eqb_neq. pose proof (hour_range t). lia. }
  split; [exact hour_range|]. split; [|split].
  - intros s s'. rewrite is_target_time_eq.
    destruct (local_now w cfg s) as [[now|e|c] s1]; try discriminate.
    now rewrite Hne.
  - intros s now s1 Hnow. now rewrite is_target_time_eq, Hnow, Hne.
  - intros now s1 Hnow Ha Hb.
    assert (Hhour : Calendar.hour now <> TARGET_HOUR cfg) by now apply Z.eqb_neq.
    destruct (off_target_hour_run w cfg now s1 Hnow Hhour) as [Hnet Hrun].
    split; [apply (Hrun Ha Hb) | exact Hnet].
Qed.

Lemma out_of_range_target_hour_never_matches_witness :
  TARGET_HOUR hour_24_config = 24
  /\ fst (is_target_time good_world hour_24_config initial) = Ok false
  /\ status good_world hour_24_config = 0
  /\ network_calls good_world hour_24_config = [].
Proof.
  split; [reflexivity|].
  destruct (out_of_range_target_hour_never_matches
              good_world hour_24_config (or_intror eq_refl))
    as (_ & _ & Hgate & Hrun).
  split.
  - now rewrite (Hgate initial (mk_datetime 1793730600 (-21600) true)
                       (mk_state 1 []) eq_refl).
  - exact (Hrun (mk_datetime 1793730600 (-21600) true) (mk_state 1 [])
                eq_refl eq_refl eq_refl).
Defined.

(** * More of the script *)

(** ** [local_now] and the gate *)

(** X1. When [zoneinfo] could not be imported, [local_now] never raises,
    whatever TIMEZONE holds: it reads the clock once and returns the naive
    UTC time, so the gate compares the UTC hour with the target hour. *)
Theorem local_now_falls_back_to_utc
        (w : world) (cfg : config) (s : state)
        (Hnoimport : zoneinfo_imported w = false) :
  local_now w cfg s =
  (Ok (mk_datetime (clock w (ticks s)) 0 false), mk_state (S (ticks s)) (out s))
  /\ fst (is_target_time w cfg s) =
     Ok ((clock w (ticks s) / 3600) mod 24 =? TARGET_HOUR cfg).
Proof.
  assert (H : local_now w cfg s =
              (Ok (mk_datetime (clock w (ticks s)) 0 false),
               mk_state (S (ticks s)) (out s))).
  { unfold local_now. now rewrite Hnoimport. }
  split; [exact H|].
  rewrite is_target_time_eq, H. unfold Calendar.hour, Calendar.wall_seconds. simpl.
  now rewrite Z.add_0_r.
Qed.

Lemma local_now_falls_back_to_utc_witness :
  zoneinfo_imported no_zoneinfo_world = false
  /\ fst (is_target_time no_zoneinfo_world utc_18_config initial) = Ok true.
Proof.
  split; [reflexivity|].
  exact (proj2 (local_now_falls_back_to_utc no_zoneinfo_world utc_18_config initial eq_refl)).
Defined.

(** X2. With [zoneinfo] imported and a TIMEZONE the host does not know,
    [local_now] raises inside the gate and nothing catches it: even with
    both secrets present the process ends with status 1, having printed
    nothing and made no network call. *)
Theorem unknown_zone_exits_1_silently
        (w : world) (cfg : config)
        (Hsender : present (SENDER_EMAIL cfg))
        (Hpassword : present (SENDER_PASSWORD cfg))
        (Himport : zoneinfo_imported w = true)
        (Hzone : tzdata w (TIMEZONE cfg) = None) :
  fst (main w cfg initial) = Raise (ZoneInfoNotFoundError (TIMEZONE cfg))
  /\ status w cfg = 1
  /\ trace w cfg = [].
Proof.
  assert (Hz : zone w cfg = None) by (unfold zone; now rewrite Himport).
  rewrite status_eq, trace_eq, (main_secrets_present _ _ Hsender Hpassword).
  rewrite is_target_time_eq, local_now_eq, Hz. now repeat split.
Qed.

Lemma unknown_zone_exits_1_silently_witness :
  present (SENDER_EMAIL mars_config)
  /\ present (SENDER_PASSWORD mars_config)
  /\ tzdata good_world (TIMEZONE mars_config) = None
  /\ status good_world mars_config = 1
  /\ trace good_world mars_config = [].
Proof.
  split; [reflexivity|]. split; [reflexivity|]. split; [reflexivity|].
  exact (proj2 (unknown_zone_exits_1_silently good_world mars_config
                  eq_refl eq_refl eq_refl eq_refl)).
Defined.

(** ** The exit status and the network *)

Lemma normalize_not_exit (j : json) (c : Z) : normalize j <> SysExit c.
Proof.
  destruct j as [| | | | |l|d]; simpl; try discriminate.
  destruct (Py.or (Py.get d "position") (Py.or (Py.get d "title") (JStr "")));
    simpl; try discriminate.
  destruct (Py.get_default d "company" (JStr "")); simpl; discriminate.
Qed.

Lemma for_each_not_exit (keywords : list string) (js : list json)
      (results : list posting) (c : Z) :
  for_each keywords js results <> SysExit c.
Proof.
  revert results; induction js as [|j js IH]; intros results; simpl; [discriminate|].
  unfold loop_body.
  destruct (normalize j) as [p|e|c'] eqn:E; simpl; [|discriminate|].
  - destruct (matches keywords (title p)); apply IH.
  - now apply normalize_not_exit in E.
Qed.

Lemma select_not_exit (keywords : list string) (jobs : json) (c : Z) :
  select keywords jobs <> SysExit c.
Proof.
  unfold select. destruct (slice_from_1 jobs) as [js|e|c'] eqn:E; simpl.
  - apply for_each_not_exit.
  - discriminate.
  - destruct jobs; discriminate.
Qed.

(** The run with both secrets and a zone the host knows, case by case. *)
Lemma main_with_zone (w : world) (cfg : config) (offset_at : Z -> Z) :
  present (SENDER_EMAIL cfg) -> present (SENDER_PASSWORD cfg) ->
  zone w cfg = Some offset_at ->
  let now := gate_time w offset_at in
  let s1 := mk_state 1 [Console (LogLocalTime (TIMEZONE cfg) now)] in
  main w cfg initial =
  if Calendar.hour now =? TARGET_HOUR cfg
  then (jobs <- fetch_jobs w cfg ;; send_email w cfg jobs) s1
  else (Ok tt, mk_state 1 [Console (LogLocalTime (TIMEZONE cfg) now);
                           Console LogNotTargetHour]).
Proof.
  intros Ha Hb Hz now s1.
  rewrite (main_secrets_present _ _ Ha Hb), is_target_time_eq, local_now_eq, Hz.
  subst now s1. unfold gate_time. simpl ticks. simpl out.
  destruct (Calendar.hour _ =? TARGET_HOUR cfg); reflexivity.
Qed.

(** The fetch and the send from a state, once the fetch outcome is known. *)
Lemma fetch_then_send (w : world) (cfg : config) (s : state) :
  (exists offset_at, zone w cfg = Some offset_at) ->
  let get := HttpGet (REMOTEOK_API cfg) "Mozilla/5.0" 15 in
  match fetch_outcome w with
  | inl e =>
      (jobs <- fetch_jobs w cfg ;; send_email w cfg jobs) s =
      send_email w cfg []
        (mk_state (ticks s) ((out s ++ [get]) ++ [Console (LogFetchFailed e)])%list)
  | inr parsed =>
      match select (KEYWORDS cfg) parsed with
      | Ok jobs =>
          (jobs <- fetch_jobs w cfg ;; send_email w cfg jobs) s =
          send_email w cfg jobs (mk_state (ticks s) (out s ++ [get])%list)
      | Raise e =>
          (jobs <- fetch_jobs w cfg ;; send_email w cfg jobs) s =
          (Raise e, mk_state (ticks s) (out s ++ [get])%list)
      | SysExit _ => False
      end
  end.
Proof.
  intros _ get. pose proof (fetch_jobs_eq w cfg s) as H. cbv zeta in H. fold get in H.
  destruct (fetch_outcome w) as [e|parsed].
  - unfold bind at 1. now rewrite H.
  - destruct (select (KEYWORDS cfg) parsed) as [jobs|e|c] eqn:E.
    + unfold bind at 1. now rewrite H.
    + unfold bind at 1. now rewrite H.
    + now apply select_not_exit in E.
Qed.

(** X3. The exit status is 0 or 1, and it is 0 exactly when both secrets
    are present, the host resolves the zone, and either the hour is not
    the target hour, or the fetch fails, or the loop over the parsed
    answer raises nothing.  What the SMTP server does never shows in the
    status. *)
Theorem exit_status_characterized (w : world) (cfg : config) :
  (status w cfg = 0 \/ status w cfg = 1)
  /\ (status w cfg = 0 <->
      present (SENDER_EMAIL cfg) /\ present (SENDER_PASSWORD cfg) /\
      exists offset_at,
        zone w cfg = Some offset_at /\
        (Calendar.hour (gate_time w offset_at) <> TARGET_HOUR cfg
         \/ (exists e, fetch_failure w e)
         \/ (exists parsed jobs,
                fetch_parsed w parsed /\ select (KEYWORDS cfg) parsed = Ok jobs))).
Proof.
  destruct (Py.truthy_opt (SENDER_EMAIL cfg)) eqn:Ha.
  2:{ rewrite status_eq, main_secrets_absent by (left; exact Ha). simpl.
      split; [now right|]. split; [discriminate|].
      intros (Ha' & _). unfold present in Ha'. congruence. }
  destruct (Py.truthy_opt (SENDER_PASSWORD cfg)) eqn:Hb.
  2:{ rewrite status_eq, main_secrets_absent by (right; exact Hb). simpl.
      split; [now right|]. split; [discriminate|].
      intros (_ & Hb' & _). unfold present in Hb'. congruence. }
  destruct (zone w cfg) as [f|] eqn:Hz.
  2:{ rewrite status_eq, (main_secrets_present _ _ Ha Hb).
      rewrite is_target_time_eq, local_now_eq, Hz. simpl.
      split; [now right|]. split; [discriminate|].
      intros (_ & _ & f & Hf & _). discriminate. }
  rewrite status_eq, (main_with_zone _ _ _ Ha Hb Hz). cbv zeta.
  destruct (Calendar.hour (gate_time w f) =? TARGET_HOUR cfg) eqn:Hh.
  2:{ simpl. apply Z.eqb_neq in Hh. split; [now left|].
      split; [|reflexivity]. intros _. repeat split; trivial.
      exists f. split; [reflexivity | now left]. }
  apply Z.eqb_eq in Hh.
  pose proof (fetch_then_send w cfg
                (mk_state 1 [Console (LogLocalTime (TIMEZONE cfg) (gate_time w f))])
                (ex_intro _ f Hz)) as H.
  cbv zeta in H.
  destruct (fetch_outcome w) as [e|parsed] eqn:Ho.
  - rewrite H.
    destruct (send_email_returns w cfg [] (mk_state (ticks (mk_state 1 [Console (LogLocalTime (TIMEZONE cfg) (gate_time w f))])) ((out (mk_state 1 [Console (LogLocalTime (TIMEZONE cfg) (gate_time w f))]) ++ [HttpGet (REMOTEOK_API cfg) "Mozilla/5.0" 15]) ++ [Console (LogFetchFailed e)])%list) (ex_intro _ f Hz))
      as [s' ->].
    simpl. split; [now left|]. split; [|reflexivity]. intros _.
    repeat split; trivial. exists f. split; [reflexivity|].
    right; left. exists e. now apply fetch_failure_outcome.
  - destruct (select (KEYWORDS cfg) parsed) as [jobs|e|c] eqn:Hs; [| |contradiction].
    + rewrite H.
      destruct (send_email_returns w cfg jobs (mk_state (ticks (mk_state 1 [Console (LogLocalTime (TIMEZONE cfg) (gate_time w f))])) (out (mk_state 1 [Console (LogLocalTime (TIMEZONE cfg) (gate_time w f))]) ++ [HttpGet (REMOTEOK_API cfg) "Mozilla/5.0" 15])%list) (ex_intro _ f Hz))
        as [s' ->].
      simpl. split; [now left|]. split; [|reflexivity]. intros _.
      repeat split; trivial. exists f. split; [reflexivity|].
      right; right. exists parsed, jobs. split; [|exact Hs].
      now apply fetch_parsed_outcome.
    + rewrite H. simpl. split; [now right|]. split; [discriminate|].
      intros (_ & _ & f' & Hf' & [Hne | [[e' He'] | (parsed' & jobs' & Hp' & Hs')]]).
      * injection Hf' as <-. contradiction.
      * apply fetch_failure_outcome in He'. congruence.
      * apply fetch_parsed_outcome in Hp'. congruence.
Qed.

Lemma exit_status_characterized_witness :
  status good_world sample_config = 0
  /\ status object_world sample_config = 1.
Proof.
  split.
  - apply (proj2 (exit_status_characterized good_world sample_config)).
    split; [reflexivity|]. split; [reflexivity|].
    exists (fun _ => -21600). split; [reflexivity|].
    right; right. exists sample_feed, [sample_posting]. split; [|reflexivity].
    exists (mk_response 200 (inr sample_feed)). repeat split; simpl; lia.
  - destruct (proj1 (exit_status_characterized object_world sample_config)) as [H|H];
      [discriminate H | exact H].
Defined.

(** ** The SMTP session *)

(** X12. Once [local_now] has given the time, [send_email] returns
    normally in every case.  It makes connect, starttls and login in
    order, encodes the message, then makes sendmail and quit; it stops at
    the first call the server fails, and before sendmail when the message
    does not encode (a posting with a lone surrogate).  Then it prints
    exactly one line: the success line with the number of postings when
    nothing failed, the failure line with the exception otherwise. *)
Theorem send_email_session
        (w : world) (cfg : config) (jobs : list posting)
        (s s1 : state) (now : datetime)
        (Hnow : local_now w cfg s = (Ok now, s1)) :
  send_email w cfg jobs s =
  (Ok tt,
   mk_state (ticks s1)
     (out s1
        ++ fst (session w cfg (message w now jobs))
        ++ [Console (closing_line cfg jobs
                       (snd (session w cfg (message w now jobs))))])%list).
Proof. exact (send_email_trace w cfg jobs s s1 now Hnow). Qed.

Lemma send_email_session_witness :
  local_now rejected_login_world sample_config initial =
    (Ok (mk_datetime 1793730600 (-21600) true), mk_state 1 [])
  /\ out (snd (send_email rejected_login_world sample_config [sample_posting] initial)) =
     [SmtpConnect "smtp.gmail.com" 587 20;
      SmtpStarttls;
      SmtpLogin (Some "me@example.org") (Some "app-password");
      Console (LogSendFailed (SMTPException Login "535 bad credentials"))]
  /\ out (snd (send_email good_world sample_config [surrogate_posting] initial)) =
     [SmtpConnect "smtp.gmail.com" 587 20;
      SmtpStarttls;
      SmtpLogin (Some "me@example.org") (Some "app-password");
      Console (LogSendFailed UnicodeEncodeError)].
Proof.
  split; [reflexivity|]. split.
  - now rewrite (send_email_session rejected_login_world sample_config [sample_posting]
                   initial (mk_state 1 []) (mk_datetime 1793730600 (-21600) true) eq_refl).
  - now rewrite (send_email_session good_world sample_config [surrogate_posting]
                   initial (mk_state 1 []) (mk_datetime 1793730600 (-21600) true) eq_refl).
Defined.

Lemma attempted_network (w : world) (calls : list (smtp_call * event)) :
  Forall (fun c => is_network (snd c) = true /\ is_http (snd c) = false) calls ->
  Forall (fun ev => is_network ev = true /\ is_http ev = false) (fst (attempted w calls)).
Proof.
  induction 1 as [|[call ev] calls Hc _ IH]; simpl; [constructor|].
  destruct (smtp_error w call); simpl; [now repeat constructor|].
  destruct (attempted w calls) as [evs r]. simpl in *. now constructor.
Qed.

Lemma attempted_subset (w : world) (calls : list (smtp_call * event)) (ev : event) :
  In ev (fst (attempted w calls)) -> In ev (map snd calls).
Proof.
  induction calls as [|[call e] calls IH]; simpl; [tauto|].
  destruct (smtp_error w call); simpl; [tauto|].
  destruct (attempted w calls) as [evs r]. simpl in *. tauto.
Qed.

Lemma encode_some (s bytes : string) : PyStr.encode s = Some bytes -> bytes = s.
Proof. unfold PyStr.encode. destruct (PyStr.has_surrogate s); congruence. Qed.

(** The events of a session are SMTP calls. *)
Lemma session_network (w : world) (cfg : config) (msg : string) :
  Forall (fun ev => is_network ev = true /\ is_http ev = false) (fst (session w cfg msg)).
Proof.
  unfold session.
  pose proof (attempted_network w (opening_calls cfg)) as Ho.
  destruct (attempted w (opening_calls cfg)) as [evs [e|]];
    cbn [fst] in Ho; [apply Ho; repeat constructor|].
  destruct (PyStr.encode msg) as [bytes|]; [|apply Ho; repeat constructor].
  pose proof (attempted_network w (closing_calls cfg bytes)) as Hc.
  destruct (attempted w (closing_calls cfg bytes)) as [evs' r]. cbn [fst] in *.
  apply Forall_app. split; [apply Ho | apply Hc]; repeat constructor.
Qed.

(** They are among the five calls of [send_email]. *)
Lemma session_subset (w : world) (cfg : config) (msg : string) (ev : event) :
  In ev (fst (session w cfg msg)) -> In ev (map snd (smtp_calls cfg msg)).
Proof.
  unfold session.
  pose proof (attempted_subset w (opening_calls cfg) ev) as Ho.
  change (map snd (smtp_calls cfg msg))
    with (map snd (opening_calls cfg) ++ map snd (closing_calls cfg msg))%list.
  rewrite in_app_iff.
  destruct (attempted w (opening_calls cfg)) as [evs [e|]]; cbn [fst] in *; [tauto|].
  destruct (PyStr.encode msg) as [bytes|] eqn:E; [|cbn [fst]; tauto].
  apply encode_some in E. subst bytes.
  pose proof (attempted_subset w (closing_calls cfg msg) ev) as Hc.
  destruct (attempted w (closing_calls cfg msg)) as [evs' r]. cbn [fst] in *.
  rewrite in_app_iff. tauto.
Qed.

Lemma filter_all {A} (f : A -> bool) (l : list A) :
  Forall (fun x => f x = true) l -> filter f l = l.
Proof.
  induction 1 as [|x l Hx _ IH]; simpl; [reflexivity|]. now rewrite Hx, IH.
Qed.

(** X13. In the trace [send_email] adds, the [sendmail] call appears
    exactly when connect, starttls and login went through and the message
    encodes, and the success line is printed exactly when, besides, none
    of the five calls failed.  So when only [quit] fails, the message was
    handed over and the run still reports a failed send; and when the
    message does not encode, the run logs in, never calls [sendmail] or
    [quit], and reports the encoding error. *)
Theorem sendmail_and_success_line
        (w : world) (cfg : config) (jobs : list posting)
        (s s1 : state) (now : datetime)
        (Hnow : local_now w cfg s = (Ok now, s1)) :
  exists evs line,
    out (snd (send_email w cfg jobs s)) = (out s1 ++ evs ++ [Console line])%list
    /\ Forall (fun ev => is_network ev = true /\ is_http ev = false) evs
    /\ (In (SmtpSendmail (SENDER_EMAIL cfg) (RECEIVER_EMAIL cfg) (message w now jobs)) evs
        <-> smtp_reaches_sendmail w /\ PyStr.has_surrogate (message w now jobs) = false)
    /\ (line = LogEmailSent (RECEIVER_EMAIL cfg) (List.length jobs)
        <-> (forall call, smtp_error w call = None)
            /\ PyStr.has_surrogate (message w now jobs) = false)
    /\ (forall msg,
          smtp_reaches_sendmail w ->
          PyStr.has_surrogate (message w now jobs) = false ->
          smtp_error w Sendmail = None ->
          smtp_error w Quit = Some msg ->
          line = LogSendFailed (SMTPException Quit msg))
    /\ (smtp_reaches_sendmail w ->
        PyStr.has_surrogate (message w now jobs) = true ->
        line = LogSendFailed UnicodeEncodeError
        /\ evs = map snd (opening_calls cfg)).
Proof.
  rewrite (send_email_trace w cfg jobs s s1 now Hnow). cbn [snd out].
  exists (fst (session w cfg (message w now jobs))),
         (closing_line cfg jobs (snd (session w cfg (message w now jobs)))).
  split; [reflexivity|].
  split; [apply session_network|].
  generalize (message w now jobs) as msg. intros msg.
  unfold smtp_reaches_sendmail, session, PyStr.encode. simpl.
  destruct (smtp_error w Connect) eqn:Hc; simpl.
  { split; [|split; [|split]].
    - split; [intros [H|[]]; discriminate | intros ((H & _) & _); discriminate].
    - split; [discriminate | intros [H _]; now rewrite H in Hc].
    - intros m (H & _); discriminate.
    - intros (H & _); discriminate. }
  destruct (smtp_error w Starttls) eqn:Ht; simpl.
  { split; [|split; [|split]].
    - split; [intros [H|[H|[]]]; discriminate | intros ((_ & H & _) & _); discriminate].
    - split; [discriminate | intros [H _]; now rewrite H in Ht].
    - intros m (_ & H & _); discriminate.
    - intros (_ & H & _); discriminate. }
  destruct (smtp_error w Login) eqn:Hl; simpl.
  { split; [|split; [|split]].
    - split; [intros [H|[H|[H|[]]]]; discriminate | intros ((_ & _ & H) & _); discriminate].
    - split; [discriminate | intros [H _]; now rewrite H in Hl].
    - intros m (_ & _ & H); discriminate.
    - intros (_ & _ & H); discriminate. }
  destruct (PyStr.has_surrogate msg) eqn:He; simpl.
  { split; [|split; [|split]].
    - split; [intros [H|[H|[H|[]]]]; discriminate | intros (_ & H); discriminate].
    - split; [discriminate | intros [_ H]; discriminate].
    - intros m _ H; discriminate.
    - intros _ _. now split. }
  destruct (smtp_error w Sendmail) eqn:Hs; simpl.
  { split; [|split; [|split]].
    - split; [intros _; now repeat split | intros _; tauto].
    - split; [discriminate | intros [H _]; now rewrite H in Hs].
    - intros m _ _ H; discriminate.
    - intros _ H; discriminate. }
  destruct (smtp_error w Quit) eqn:Hq; simpl.
  { split; [|split; [|split]].
    - split; [intros _; now repeat split | intros _; tauto].
    - split; [discriminate | intros [H _]; now rewrite H in Hq].
    - intros m _ _ _ [= <-]. reflexivity.
    - intros _ H; discriminate. }
  split; [|split; [|split]].
  - split; [intros _; now repeat split | intros _; tauto].
  - split; [intros _; split; [intros []; assumption | reflexivity] | reflexivity].
  - intros m _ _ _ H; discriminate.
  - intros _ H; discriminate.
Qed.

Lemma sendmail_and_success_line_witness :
  local_now failing_quit_world sample_config initial =
    (Ok (mk_datetime 1793730600 (-21600) true), mk_state 1 [])
  /\ (exists evs line,
        out (snd (send_email failing_quit_world sample_config [] initial)) =
          ([] ++ evs ++ [Console line])%list
        /\ line = LogSendFailed (SMTPException Quit "connection reset"))
  /\ (exists evs line,
        out (snd (send_email good_world sample_config [surrogate_posting] initial)) =
          ([] ++ evs ++ [Console line])%list
        /\ line = LogSendFailed UnicodeEncodeError
        /\ evs = [SmtpConnect "smtp.gmail.com" 587 20; SmtpStarttls;
                  SmtpLogin (Some "me@example.org") (Some "app-password")]).
Proof.
  split; [reflexivity|]. split.
  - destruct (sendmail_and_success_line failing_quit_world sample_config []
                initial (mk_state 1 []) (mk_datetime 1793730600 (-21600) true) eq_refl)
      as (evs & line & Hout & _ & _ & _ & Hquit & _).
    exists evs, line. split; [exact Hout|].
    apply Hquit; [repeat split | reflexivity | reflexivity | reflexivity].
  - destruct (sendmail_and_success_line good_world sample_config [surrogate_posting]
                initial (mk_state 1 []) (mk_datetime 1793730600 (-21600) true) eq_refl)
      as (evs & line & Hout & _ & _ & _ & _ & Hsur).
    exists evs, line. split; [exact Hout|].
    apply Hsur; [repeat split | reflexivity].
Defined.

(** ** Whole runs *)

Lemma local_now_send_time (w : world) (cfg : config) (offset_at : Z -> Z) (s : state) :
  zone w cfg = Some offset_at -> ticks s = 1%nat ->
  local_now w cfg s = (Ok (send_time w offset_at), mk_state 2 (out s)).
Proof.
  intros Hz Ht. rewrite local_now_eq, Hz, Ht. reflexivity.
Qed.

Lemma fetch_jobs_ticks (w : world) (cfg : config) (s : state) :
  ticks (snd (fetch_jobs w cfg s)) = ticks s.
Proof.
  pose proof (fetch_jobs_eq w cfg s) as H. cbv zeta in H. rewrite H.
  now destruct (fetch_outcome w).
Qed.

(** The trace of a run that got through the gate and whose fetch
    returned. *)
Lemma gate_open_trace (w : world) (cfg : config) (offset_at : Z -> Z)
      (jobs : list posting) (s2 : state) :
  present (SENDER_EMAIL cfg) -> present (SENDER_PASSWORD cfg) ->
  zone w cfg = Some offset_at ->
  Calendar.hour (gate_time w offset_at) = TARGET_HOUR cfg ->
  fetch_jobs w cfg
    (mk_state 1 [Console (LogLocalTime (TIMEZONE cfg) (gate_time w offset_at))]) =
  (Ok jobs, s2) ->
  let msg := message w (send_time w offset_at) jobs in
  main w cfg initial =
  (Ok tt,
   mk_state 2 (out s2 ++ fst (session w cfg msg)
                 ++ [Console (closing_line cfg jobs (snd (session w cfg msg)))])%list).
Proof.
  intros Ha Hb Hz Hh Hfetch msg.
  rewrite (main_with_zone _ _ _ Ha Hb Hz). cbv zeta.
  apply Z.eqb_eq in Hh. rewrite Hh. unfold bind at 1. rewrite Hfetch.
  assert (Ht : ticks s2 = 1%nat).
  { pose proof (fetch_jobs_ticks w cfg
                  (mk_state 1 [Console (LogLocalTime (TIMEZONE cfg) (gate_time w offset_at))]))
      as H. now rewrite Hfetch in H. }
  now rewrite (send_email_trace w cfg jobs s2 _ _ (local_now_send_time _ _ _ _ Hz Ht)).
Qed.

(** X20. On a run with both secrets that gets through the gate, whatever
    list [fetch_jobs] returns is the list the digest is built from: the
    trace is the trace up to the end of the fetch, then the SMTP session
    for the message made of these postings and dated by the second reading
    of the clock, then one closing line.  The message reaches [sendmail]
    whenever connect, starttls and login go through and the message
    encodes, which it does when every block is ASCII. *)
Theorem full_run_sends_digest
        (w : world) (cfg : config) (offset_at : Z -> Z)
        (jobs : list posting) (s2 : state)
        (Hsender : present (SENDER_EMAIL cfg))
        (Hpassword : present (SENDER_PASSWORD cfg))
        (Hzone : zone w cfg = Some offset_at)
        (Hhour : Calendar.hour (gate_time w offset_at) = TARGET_HOUR cfg)
        (Hfetch : fetch_jobs w cfg
                    (mk_state 1 [Console (LogLocalTime (TIMEZONE cfg) (gate_time w offset_at))])
                  = (Ok jobs, s2)) :
  let msg := message w (send_time w offset_at) jobs in
  trace w cfg =
    (out s2 ++ fst (session w cfg msg)
       ++ [Console (closing_line cfg jobs (snd (session w cfg msg)))])%list
  /\ (smtp_reaches_sendmail w -> PyStr.has_surrogate msg = false ->
      In (SmtpSendmail (SENDER_EMAIL cfg) (RECEIVER_EMAIL cfg) msg) (trace w cfg))
  /\ (Forall (fun p => ascii_only (block w p) = true) jobs ->
      PyStr.has_surrogate msg = false).
Proof.
  intros msg.
  pose proof (gate_open_trace w cfg offset_at jobs s2 Hsender Hpassword Hzone Hhour Hfetch)
    as Hmain. cbv zeta in Hmain. fold msg in Hmain.
  rewrite trace_eq, Hmain. cbn [snd out]. split; [reflexivity|]. split.
  - intros Hsmtp He. rewrite !in_app_iff. right; left.
    now apply session_reaches_sendmail.
  - intros Hascii. apply message_encodes, no_ed_byte_body.
    eapply Forall_impl; [|exact Hascii].
    intros p Hp. now apply ascii_only_no_ed_byte.
Qed.

Lemma full_run_sends_digest_witness :
  fst (fetch_jobs good_world sample_config
         (mk_state 1 [Console (LogLocalTime "America/Chicago"
                                 (gate_time good_world (fun _ => -21600)))]))
    = Ok [sample_posting]
  /\ In (SmtpSendmail (Some "me@example.org") (Some "me@example.org")
           ("Subject: Daily Remote Jobs — 2026-11-03" ++ PyStr.nl ++ PyStr.nl
              ++ "Junior Data Engineer at Acme" ++ PyStr.nl
              ++ "Apply: http://x" ++ PyStr.nl))
        (trace good_world sample_config).
Proof.
  split; [reflexivity|].
  refine (proj1 (proj2 (full_run_sends_digest good_world sample_config (fun _ => -21600)
                          [sample_posting] _ eq_refl eq_refl eq_refl eq_refl eq_refl))
                _ eq_refl).
  repeat split.
Defined.

Lemma normalize_raises (j : json) (e : exn) :
  normalize j = Raise e -> e = AttributeError.
Proof.
  destruct j as [| | | | |l|d]; simpl; try (now intros [= <-]).
  destruct (Py.or (Py.get d "position") (Py.or (Py.get d "title") (JStr "")));
    simpl; try (now intros [= <-]).
  destruct (Py.get_default d "company" (JStr "")); simpl;
    try (now intros [= <-]); discriminate.
Qed.

Lemma for_each_raises (keywords : list string) (js : list json)
      (results : list posting) (e : exn) :
  for_each keywords js results = Raise e -> e = AttributeError.
Proof.
  revert results; induction js as [|j js IH]; intros results; simpl; [discriminate|].
  unfold loop_body.
  destruct (normalize j) as [p|e'|c] eqn:E; simpl.
  - destruct (matches keywords (title p)); apply IH.
  - intros [= <-]. now apply normalize_raises in E.
  - discriminate.
Qed.

Lemma select_raises (keywords : list string) (jobs : json) (e : exn) :
  select keywords jobs = Raise e -> e = AttributeError \/ e = TypeError.
Proof.
  unfold select. destruct jobs as [| | | | s|l|d]; simpl;
    try (intros [= <-]; now right); intros H; left; eapply for_each_raises; exact H.
Qed.

(** X18. [fetch_jobs] makes exactly one GET, with the configured URL, the
    user agent "Mozilla/5.0" and a timeout of 15, and never a second one;
    it does not read the clock; it never ends the process; and no
    exception of the request, of the status check or of the JSON parser
    leaves it: what it can raise is the AttributeError or the TypeError of
    the lines after the [try]. *)
Theorem fetch_jobs_one_get (w : world) (cfg : config) (s : state) :
  ticks (snd (fetch_jobs w cfg s)) = ticks s
  /\ filter is_network (out (snd (fetch_jobs w cfg s))) =
     (filter is_network (out s) ++ [HttpGet (REMOTEOK_API cfg) "Mozilla/5.0" 15])%list
  /\ (forall c, fst (fetch_jobs w cfg s) <> SysExit c)
  /\ (forall e, fst (fetch_jobs w cfg s) = Raise e -> e = AttributeError \/ e = TypeError).
Proof.
  split; [apply fetch_jobs_ticks|].
  pose proof (fetch_jobs_eq w cfg s) as H. cbv zeta in H. rewrite H.
  destruct (fetch_outcome w) as [e|parsed]; simpl.
  - rewrite !filter_app, app_nil_r. simpl.
    split; [reflexivity|]. split; discriminate.
  - rewrite filter_app. simpl. split; [reflexivity|].
    split; [intros c; apply select_not_exit | intros e; apply select_raises].
Qed.

(** The trace of a run that got through the gate and whose loop raised. *)
Lemma gate_open_raise (w : world) (cfg : config) (offset_at : Z -> Z)
      (e : exn) (s2 : state) :
  present (SENDER_EMAIL cfg) -> present (SENDER_PASSWORD cfg) ->
  zone w cfg = Some offset_at ->
  Calendar.hour (gate_time w offset_at) = TARGET_HOUR cfg ->
  fetch_jobs w cfg
    (mk_state 1 [Console (LogLocalTime (TIMEZONE cfg) (gate_time w offset_at))]) =
  (Raise e, s2) ->
  main w cfg initial = (Raise e, s2).
Proof.
  intros Ha Hb Hz Hh Hfetch.
  rewrite (main_with_zone _ _ _ Ha Hb Hz). cbv zeta.
  apply Z.eqb_eq in Hh. rewrite Hh. unfold bind at 1. now rewrite Hfetch.
Qed.

Lemma filter_network_smtp (evs : list event) :
  Forall (fun ev => is_network ev = true /\ is_http ev = false) evs ->
  filter is_network evs = evs /\ Forall (fun ev => is_http ev = false) evs.
Proof.
  intros H. split.
  - apply filter_all. eapply Forall_impl; [|exact H]. now intros ev [].
  - eapply Forall_impl; [|exact H]. now intros ev [].
Qed.

Lemma network_of_session (pre evs : list event) (line : logline) :
  filter is_network evs = evs ->
  filter is_network (pre ++ evs ++ [Console line])%list =
  (filter is_network pre ++ evs)%list.
Proof.
  intros H. rewrite !filter_app, H. simpl. now rewrite app_nil_r.
Qed.

(** X16. A run with any network call at all had both secrets and
    computed a local hour equal to the target hour; its first network call
    is the one GET, and every later one is an SMTP call. *)
Theorem network_calls_shape (w : world) (cfg : config) :
  network_calls w cfg = []
  \/ (present (SENDER_EMAIL cfg) /\ present (SENDER_PASSWORD cfg) /\
      exists offset_at rest,
        zone w cfg = Some offset_at
        /\ Calendar.hour (gate_time w offset_at) = TARGET_HOUR cfg
        /\ network_calls w cfg = HttpGet (REMOTEOK_API cfg) "Mozilla/5.0" 15 :: rest
        /\ Forall (fun ev => is_http ev = false) rest).
Proof.
  unfold network_calls. rewrite trace_eq.
  destruct (Py.truthy_opt (SENDER_EMAIL cfg)) eqn:Ha;
    [|left; now rewrite main_secrets_absent by (left; exact Ha)].
  destruct (Py.truthy_opt (SENDER_PASSWORD cfg)) eqn:Hb;
    [|left; now rewrite main_secrets_absent by (right; exact Hb)].
  destruct (zone w cfg) as [f|] eqn:Hz.
  2:{ left. rewrite (main_secrets_present _ _ Ha Hb), is_target_time_eq, local_now_eq, Hz.
      reflexivity. }
  destruct (Calendar.hour (gate_time w f) =? TARGET_HOUR cfg) eqn:Hh.
  2:{ left. rewrite (main_with_zone _ _ _ Ha Hb Hz). cbv zeta. now rewrite Hh. }
  apply Z.eqb_eq in Hh. right. split; [exact Ha|]. split; [exact Hb|]. exists f.
  set (s1 := mk_state 1 [Console (LogLocalTime (TIMEZONE cfg) (gate_time w f))]).
  pose proof (fetch_jobs_eq w cfg s1) as Hfetch. cbv zeta in Hfetch.
  destruct (fetch_outcome w) as [e|parsed].
  - rewrite (gate_open_trace _ _ _ _ _ Ha Hb Hz Hh Hfetch). cbv zeta.
    cbn [snd out ticks].
    destruct (filter_network_smtp _ (session_network w cfg
                (message w (send_time w f) []))) as [Hf Hr].
    eexists. split; [reflexivity|]. split; [exact Hh|].
    rewrite (network_of_session _ _ _ Hf). subst s1. cbn [out].
    rewrite !filter_app. cbn [filter is_network app].
    split; [reflexivity | exact Hr].
  - destruct (select (KEYWORDS cfg) parsed) as [jobs|e|c] eqn:Hs.
    + rewrite (gate_open_trace _ _ _ _ _ Ha Hb Hz Hh Hfetch). cbv zeta.
      cbn [snd out ticks].
      destruct (filter_network_smtp _ (session_network w cfg
                  (message w (send_time w f) jobs))) as [Hf Hr].
      eexists. split; [reflexivity|]. split; [exact Hh|].
      rewrite (network_of_session _ _ _ Hf). subst s1. cbn [out].
      rewrite !filter_app. cbn [filter is_network app].
      split; [reflexivity | exact Hr].
    + rewrite (gate_open_raise _ _ _ _ _ Ha Hb Hz Hh Hfetch). subst s1.
      cbn [snd out ticks]. rewrite !filter_app. cbn [filter is_network app].
      exists []. split; [reflexivity|]. split; [exact Hh|]. split; [reflexivity | constructor].
    + now apply select_not_exit in Hs.
Qed.

Lemma network_calls_shape_witness :
  network_calls morning_world sample_config = []
  /\ exists rest,
      network_calls rejected_login_world sample_config =
        HttpGet "https://remoteok.io/api" "Mozilla/5.0" 15 :: rest
      /\ Forall (fun ev => is_http ev = false) rest.
Proof.
  split; [reflexivity|].
  destruct (network_calls_shape rejected_login_world sample_config)
    as [H | (_ & _ & f & rest & _ & _ & Hcalls & Hrest)].
  - discriminate H.
  - exists rest. split; [exact Hcalls | exact Hrest].
Defined.

(** ** Records of the feed *)

Lemma or_falsy (a b : json) : Py.truthy a = false -> Py.or a b = b.
Proof. unfold Py.or. now intros ->. Qed.

Lemma or_truthy (a b : json) : Py.truthy a = true -> Py.or a b = a.
Proof. unfold Py.or. now intros ->. Qed.

Lemma strip_empty : PyStr.strip EmptyString = EmptyString.
Proof. reflexivity. Qed.

(** X4. A record whose position and title are missing, null or otherwise
    false, and whose url and apply_url are too, normalizes without error
    to a posting with the empty title and the empty link, whatever the
    type of those false values; its company is the stripped company
    string, the empty string when the key is missing.  Under keywords
    parsed at load such a record is never retained. *)
Theorem missing_fields_default_to_empty
        (d : list (string * json)) (c : string)
        (Hposition : Py.truthy (Py.get d "position") = false)
        (Htitle : Py.truthy (Py.get d "title") = false)
        (Hcompany : Py.get_default d "company" (JStr "") = JStr c)
        (Hurl : Py.truthy (Py.get d "url") = false)
        (Happly : Py.truthy (Py.get d "apply_url") = false) :
  normalize (JObj d) = Ok (mk_posting EmptyString (PyStr.strip c) (JStr ""))
  /\ (forall raw results,
        loop_body (parse_keywords raw) (JObj d) results = Ok results).
Proof.
  assert (H : normalize (JObj d) = Ok (mk_posting EmptyString (PyStr.strip c) (JStr ""))).
  { unfold normalize.
    rewrite (or_falsy _ _ Hposition), (or_falsy _ _ Htitle), Hcompany.
    rewrite (or_falsy _ _ Hurl), (or_falsy _ _ Happly). reflexivity. }
  split; [exact H|].
  intros raw results. rewrite (loop_body_normalized _ _ _ _ H). simpl.
  rewrite matches_empty_title; [reflexivity|].
  intros k Hk. apply parse_keywords_In in Hk as (k0 & -> & Hk0).
  intros E. now apply PyStrFacts.lower_empty in E.
Qed.

Lemma missing_fields_default_to_empty_witness :
  normalize (JObj [("position", JNull); ("title", JInt 0); ("url", JArr [])]) =
    Ok (mk_posting EmptyString EmptyString (JStr ""))
  /\ normalize (JObj []) = Ok (mk_posting EmptyString EmptyString (JStr "")).
Proof.
  split.
  - exact (proj1 (missing_fields_default_to_empty
                    [("position", JNull); ("title", JInt 0); ("url", JArr [])] ""
                    eq_refl eq_refl eq_refl eq_refl eq_refl)).
  - exact (proj1 (missing_fields_default_to_empty [] ""
                    eq_refl eq_refl eq_refl eq_refl eq_refl)).
Defined.

(** X6. The position, when it is a non-empty str, decides the title and
    the title key is not looked at; so a position made only of white
    space hides a usable title: the posting's title is empty and, under
    keywords parsed at load, the record is dropped.  The title key is used
    when the position is false.  The link is the url when that is true,
    else the apply_url when that is true, else the empty string, and it is
    stored as it is, without stripping. *)
Theorem position_and_url_take_precedence
        (d : list (string * json)) (p : posting)
        (Hp : normalize (JObj d) = Ok p) :
  (forall s, Py.get d "position" = JStr s -> s <> EmptyString ->
             title p = PyStr.strip s)
  /\ (forall s raw results,
        Py.get d "position" = JStr s -> s <> EmptyString ->
        PyStr.strip s = EmptyString ->
        loop_body (parse_keywords raw) (JObj d) results = Ok results)
  /\ (forall t, Py.truthy (Py.get d "position") = false ->
                Py.get d "title" = JStr t -> title p = PyStr.strip t)
  /\ (Py.truthy (Py.get d "url") = true -> link p = Py.get d "url")
  /\ (Py.truthy (Py.get d "url") = false ->
      Py.truthy (Py.get d "apply_url") = true -> link p = Py.get d "apply_url")
  /\ (Py.truthy (Py.get d "url") = false ->
      Py.truthy (Py.get d "apply_url") = false -> link p = JStr "").
Proof.
  assert (Htitle : forall s, Py.get d "position" = JStr s -> s <> EmptyString ->
                             title p = PyStr.strip s).
  { intros s Hs Hne. unfold normalize in Hp. rewrite Hs in Hp.
    rewrite or_truthy in Hp by (now apply PyStrFacts.truthy_nonempty).
    simpl in Hp. destruct (Py.get_default d "company" (JStr "")); simpl in Hp;
      try discriminate. now injection Hp as <-. }
  assert (Hlink : link p = Py.or (Py.get d "url") (Py.or (Py.get d "apply_url") (JStr ""))).
  { unfold normalize in Hp.
    destruct (Py.or (Py.get d "position") (Py.or (Py.get d "title") (JStr "")));
      simpl in Hp; try discriminate.
    destruct (Py.get_default d "company" (JStr "")); simpl in Hp; try discriminate.
    now injection Hp as <-. }
  split; [exact Htitle|]. split; [|split; [|split; [|split]]].
  - intros s raw results Hs Hne Hblank.
    rewrite (loop_body_normalized _ _ _ _ Hp), (Htitle s Hs Hne), Hblank.
    rewrite matches_empty_title; [reflexivity|].
    intros k Hk. apply parse_keywords_In in Hk as (k0 & -> & Hk0).
    intros E. now apply PyStrFacts.lower_empty in E.
  - intros t Hpos Ht. unfold normalize in Hp.
    rewrite (or_falsy _ _ Hpos), Ht in Hp.
    assert (Hor : Py.or (JStr t) (JStr "") = JStr t \/ t = EmptyString).
    { destruct t; [now right | now left]. }
    destruct Hor as [Hor | ->].
    + rewrite Hor in Hp. simpl in Hp.
      destruct (Py.get_default d "company" (JStr "")); simpl in Hp; try discriminate.
      now injection Hp as <-.
    + simpl in Hp.
      destruct (Py.get_default d "company" (JStr "")); simpl in Hp; try discriminate.
      now injection Hp as <-.
  - intros H. now rewrite Hlink, (or_truthy _ _ H).
  - intros H1 H2. now rewrite Hlink, (or_falsy _ _ H1), (or_truthy _ _ H2).
  - intros H1 H2. now rewrite Hlink, (or_falsy _ _ H1), (or_falsy _ _ H2).
Qed.

Lemma position_and_url_take_precedence_witness :
  normalize blank_position_record =
    Ok (mk_posting EmptyString EmptyString (JStr " http://y "))
  /\ loop_body (parse_keywords "data engineer") blank_position_record [] = Ok [].
Proof.
  split; [reflexivity|].
  refine (proj1 (proj2 (position_and_url_take_precedence
                          [("position", JStr "  "); ("title", JStr "Data Engineer");
                           ("apply_url", JStr " http://y ")]
                          (mk_posting EmptyString EmptyString (JStr " http://y "))
                          eq_refl))
                "  " "data engineer" [] eq_refl _ eq_refl).
  discriminate.
Defined.

(** ** The loop as a whole *)

(** X8. The loop of [fetch_jobs] returns a list exactly when every
    element after the first normalizes, and the list is then the
    normalized elements whose title matches, in the order of the feed:
    nothing is reordered, added or deduplicated, and there are never more
    postings than elements after the first. *)
Theorem select_is_ordered_filter (keywords : list string) (l : list json) (r : list posting) :
  (select keywords (JArr l) = Ok r <->
   exists ps,
     Forall2 (fun j p => normalize j = Ok p) (tl l) ps
     /\ r = filter (fun p => matches keywords (title p)) ps)
  /\ (select keywords (JArr l) = Ok r -> (List.length r <= List.length (tl l))%nat).
Proof.
  assert (Hiff : select keywords (JArr l) = Ok r <->
                 exists ps,
                   Forall2 (fun j p => normalize j = Ok p) (tl l) ps
                   /\ r = filter (fun p => matches keywords (title p)) ps).
  { unfold select. simpl. split.
    - intros H. apply for_each_inv in H as (ps & Hps & ->). now exists ps.
    - intros (ps & Hps & ->). now rewrite (for_each_normalized _ _ _ Hps). }
  split; [exact Hiff|].
  intros H. apply Hiff in H as (ps & Hps & ->).
  rewrite (Forall2_length Hps). apply filter_length_le.
Qed.

Lemma select_is_ordered_filter_witness :
  select ["engineer"; "chef"] sample_feed =
    Ok [sample_posting; mk_posting "Chef" "Bistro" (JStr "")]
  /\ (2 <= 2)%nat.
Proof.
  assert (H : select ["engineer"; "chef"] sample_feed =
              Ok [sample_posting; mk_posting "Chef" "Bistro" (JStr "")])
    by reflexivity.
  split; [exact H|].
  exact (proj2 (select_is_ordered_filter ["engineer"; "chef"] _ _) H).
Defined.

Lemma for_each_ill_formed (keywords : list string) (js : list json) :
  forall results,
    (exists j, In j js /\ well_formed j = false) ->
    for_each keywords js results = Raise AttributeError.
Proof.
  induction js as [|j js IH]; intros results (j0 & Hin & Hbad); [destruct Hin|].
  simpl. unfold loop_body.
  destruct (normalize j) as [p|e|c] eqn:Hj; simpl.
  - destruct Hin as [<- | Hin].
    + assert (Hwf : well_formed j = true) by (apply well_formed_normalize; eauto).
      congruence.
    + destruct (matches keywords (title p)); apply IH; eauto.
  - now rewrite (normalize_raises _ _ Hj).
  - now apply normalize_not_exit in Hj.
Qed.

(** X5. One record after the first that is not a dict, or whose title
    value or company value is not a str (a null company, say), makes the
    loop raise AttributeError, wherever it stands in the feed and whatever
    the keywords are; nothing catches it.  On a run that got through the
    gate the process then ends with status 1 with the GET as its only
    network call: no email is sent, not even for the records that
    matched. *)
Theorem ill_formed_record_aborts_run
        (w : world) (cfg : config) (offset_at : Z -> Z)
        (l : list json) (j : json)
        (Hin : In j (tl l))
        (Hbad : well_formed j = false) :
  (forall keywords, select keywords (JArr l) = Raise AttributeError)
  /\ (present (SENDER_EMAIL cfg) -> present (SENDER_PASSWORD cfg) ->
      zone w cfg = Some offset_at ->
      Calendar.hour (gate_time w offset_at) = TARGET_HOUR cfg ->
      fetch_parsed w (JArr l) ->
      fst (main w cfg initial) = Raise AttributeError
      /\ status w cfg = 1
      /\ network_calls w cfg = [HttpGet (REMOTEOK_API cfg) "Mozilla/5.0" 15]).
Proof.
  assert (Hsel : forall keywords, select keywords (JArr l) = Raise AttributeError).
  { intros keywords. unfold select. simpl. apply for_each_ill_formed. eauto. }
  split; [exact Hsel|].
  intros Ha Hb Hz Hh Hparsed. apply fetch_parsed_outcome in Hparsed.
  pose proof (fetch_jobs_eq w cfg
                (mk_state 1 [Console (LogLocalTime (TIMEZONE cfg) (gate_time w offset_at))]))
    as Hfetch.
  cbv zeta in Hfetch. rewrite Hparsed, Hsel in Hfetch.
  unfold network_calls.
  rewrite status_eq, trace_eq, (gate_open_raise _ _ _ _ _ Ha Hb Hz Hh Hfetch).
  now repeat split.
Qed.

Lemma ill_formed_record_aborts_run_witness :
  well_formed (JObj [("position", JStr "Cook"); ("company", JNull)]) = false
  /\ status null_company_world sample_config = 1
  /\ network_calls null_company_world sample_config =
     [HttpGet "https://remoteok.io/api" "Mozilla/5.0" 15].
Proof.
  split; [reflexivity|].
  refine (proj2 (proj2 (ill_formed_record_aborts_run
                          null_company_world sample_config (fun _ => -21600)
                          [JObj []; sample_record;
                           JObj [("position", JStr "Cook"); ("company", JNull)]]
                          (JObj [("position", JStr "Cook"); ("company", JNull)])
                          _ eq_refl)
                       eq_refl eq_refl eq_refl eq_refl _)).
  - simpl. tauto.
  - exists (mk_response 200 (inr null_company_feed)). repeat split; simpl; lia.
Defined.

(** X19. When the answer parses to something that is neither a list nor a
    str (null, a boolean, a number, an object), [jobs[1:]] raises: the
    loop never runs, and on a run that got through the gate the process
    ends with status 1 after the GET, without any SMTP call. *)
Theorem non_list_answer_raises
        (w : world) (cfg : config) (offset_at : Z -> Z) (jobs : json)
        (Hlist : forall l, jobs <> JArr l)
        (Hstr : forall s, jobs <> JStr s) :
  (forall keywords, select keywords jobs = Raise TypeError)
  /\ (present (SENDER_EMAIL cfg) -> present (SENDER_PASSWORD cfg) ->
      zone w cfg = Some offset_at ->
      Calendar.hour (gate_time w offset_at) = TARGET_HOUR cfg ->
      fetch_parsed w jobs ->
      status w cfg = 1
      /\ network_calls w cfg = [HttpGet (REMOTEOK_API cfg) "Mozilla/5.0" 15]).
Proof.
  assert (Hsel : forall keywords, select keywords jobs = Raise TypeError).
  { intros keywords. destruct jobs as [| | | |s|l|d]; try reflexivity.
    - now destruct (Hstr s).
    - now destruct (Hlist l). }
  split; [exact Hsel|].
  intros Ha Hb Hz Hh Hparsed. apply fetch_parsed_outcome in Hparsed.
  pose proof (fetch_jobs_eq w cfg
                (mk_state 1 [Console (LogLocalTime (TIMEZONE cfg) (gate_time w offset_at))]))
    as Hfetch.
  cbv zeta in Hfetch. rewrite Hparsed, Hsel in Hfetch.
  unfold network_calls.
  rewrite status_eq, trace_eq, (gate_open_raise _ _ _ _ _ Ha Hb Hz Hh Hfetch).
  now repeat split.
Qed.

Lemma non_list_answer_raises_witness :
  select (KEYWORDS sample_config) JNull = Raise TypeError
  /\ status null_answer_world sample_config = 1.
Proof.
  assert (Hl : forall l, JNull <> JArr l) by discriminate.
  assert (Hs : forall s, JNull <> JStr s) by discriminate.
  destruct (non_list_answer_raises null_answer_world sample_config (fun _ => -21600)
              JNull Hl Hs) as [Hsel Hrun].
  split; [apply Hsel|].
  refine (proj1 (Hrun eq_refl eq_refl eq_refl eq_refl _)).
  exists (mk_response 200 (inr JNull)). repeat split; simpl; lia.
Defined.

Lemma strip_trimmed (s : string) : trimmed (PyStr.strip s).
Proof.
  split; intros c Hc; apply (PyStrFacts.strip_ends s); [now left | now right].
Qed.

Lemma or_chain_link (a b : json) :
  Py.truthy (Py.or a (Py.or b (JStr ""))) = true \/ Py.or a (Py.or b (JStr "")) = JStr "".
Proof.
  unfold Py.or. destruct (Py.truthy a) eqn:Ha; [now left|].
  destruct (Py.truthy b) eqn:Hb; [now left | now right].
Qed.

Lemma normalize_shape (j : json) (p : posting) :
  normalize j = Ok p ->
  trimmed (title p) /\ trimmed (company p)
  /\ (Py.truthy (link p) = true \/ link p = JStr "").
Proof.
  destruct j as [| | | | |l|d]; simpl; try discriminate.
  destruct (Py.or (Py.get d "position") (Py.or (Py.get d "title") (JStr "")));
    simpl; try discriminate.
  destruct (Py.get_default d "company" (JStr "")); simpl; try discriminate.
  intros [= <-]. simpl.
  split; [apply strip_trimmed|]. split; [apply strip_trimmed | apply or_chain_link].
Qed.

(** X7. Every posting in the list [fetch_jobs] returns has a title and a
    company without white space at either end, a link that is true or the
    empty string (never null), and a title whose lowercased form contains
    one of the configured keywords. *)
Theorem returned_postings_are_clean
        (w : world) (cfg : config) (s s' : state) (r : list posting)
        (Hfetch : fetch_jobs w cfg s = (Ok r, s')) :
  Forall (fun p =>
            trimmed (title p) /\ trimmed (company p)
            /\ (Py.truthy (link p) = true \/ link p = JStr "")
            /\ exists k, In k (KEYWORDS cfg) /\ substring_of k (PyStr.lower (title p)))
         r.
Proof.
  pose proof (fetch_jobs_eq w cfg s) as H. cbv zeta in H. rewrite Hfetch in H.
  destruct (fetch_outcome w) as [e|parsed].
  - injection H as -> _. constructor.
  - injection H as Hsel _. symmetry in Hsel.
    apply select_inv in Hsel as (js & ps & Hps & ->).
    apply Forall_forall. intros p Hp. apply filter_In in Hp as [Hin Hm].
    destruct (Forall2_In_r _ _ _ _ Hps Hin) as (j & _ & Hj).
    destruct (normalize_shape _ _ Hj) as (Ht & Hc & Hl).
    repeat split; try assumption; try apply Ht; try apply Hc.
    now apply matches_spec.
Qed.

Lemma returned_postings_are_clean_witness :
  fst (fetch_jobs (sample_world noon_clock (inr (mk_response 200 (inr padded_feed))))
                  sample_config initial)
    = Ok [mk_posting "Data Engineer II" "Acme" (JStr "")]
  /\ trimmed "Data Engineer II".
Proof.
  split; [reflexivity|].
  pose proof (returned_postings_are_clean
                (sample_world noon_clock (inr (mk_response 200 (inr padded_feed))))
                sample_config initial _ _ eq_refl) as H.
  apply Forall_inv in H. exact (proj1 H).
Defined.

(** ** More on strings *)

Lemma lower_char_idem (c : ascii) : PyStr.lower_char (PyStr.lower_char c) = PyStr.lower_char c.
Proof. destruct c as [[] [] [] [] [] [] [] []]; reflexivity. Qed.

Lemma lower_char_not_upper (c : ascii) : is_upper (PyStr.lower_char c) = false.
Proof. destruct c as [[] [] [] [] [] [] [] []]; reflexivity. Qed.

Lemma lower_char_comma (c : ascii) : PyStr.lower_char c = ","%char -> c = ","%char.
Proof. destruct c as [[] [] [] [] [] [] [] []]; simpl; intros H; try discriminate H; reflexivity. Qed.

Lemma lower_idem (s : string) : PyStr.lower (PyStr.lower s) = PyStr.lower s.
Proof.
  induction s as [|c s IH]; simpl; [reflexivity|]. now rewrite lower_char_idem, IH.
Qed.

Lemma chars_lower (s : string) : chars (PyStr.lower s) = map PyStr.lower_char (chars s).
Proof. induction s as [|c s IH]; simpl; [reflexivity|]. now f_equal. Qed.

Lemma chars_app (s t : string) : chars (s ++ t) = (chars s ++ chars t)%list.
Proof. induction s as [|c s IH]; simpl; [reflexivity|]. now f_equal. Qed.

Lemma chars_lstrip (s : string) (c : ascii) :
  In c (chars (PyStr.lstrip s)) -> In c (chars s).
Proof.
  induction s as [|a s IH]; simpl; [tauto|].
  destruct (PyStr.isspace a); simpl; tauto.
Qed.

Lemma chars_rstrip (s : string) (c : ascii) :
  In c (chars (PyStr.rstrip s)) -> In c (chars s).
Proof.
  induction s as [|a s IH]; simpl; [tauto|].
  destruct (PyStr.rstrip s) as [|b r]; [destruct (PyStr.isspace a)|]; simpl in *; tauto.
Qed.

Lemma chars_strip (s : string) (c : ascii) :
  In c (chars (PyStr.strip s)) -> In c (chars s).
Proof. unfold PyStr.strip. intros H. now apply chars_lstrip, chars_rstrip. Qed.

Lemma lstrip_lower (s : string) : PyStr.lstrip (PyStr.lower s) = PyStr.lower (PyStr.lstrip s).
Proof.
  induction s as [|c s IH]; simpl; [reflexivity|].
  rewrite PyStrFacts.isspace_lower_char. now destruct (PyStr.isspace c).
Qed.

Lemma rstrip_lower (s : string) : PyStr.rstrip (PyStr.lower s) = PyStr.lower (PyStr.rstrip s).
Proof.
  induction s as [|c s IH]; simpl; [reflexivity|].
  rewrite IH, PyStrFacts.isspace_lower_char.
  destruct (PyStr.rstrip s); simpl; [now destruct (PyStr.isspace c) | reflexivity].
Qed.

Lemma strip_lower (s : string) : PyStr.strip (PyStr.lower s) = PyStr.lower (PyStr.strip s).
Proof. unfold PyStr.strip. now rewrite lstrip_lower, rstrip_lower. Qed.

Lemma lstrip_fixed (s : string) :
  (forall c, PyStr.first s = Some c -> PyStr.isspace c = false) -> PyStr.lstrip s = s.
Proof.
  destruct s as [|a s]; simpl; [reflexivity|]. intros H. now rewrite (H a eq_refl).
Qed.

Lemma rstrip_fixed (s : string) :
  (forall c, PyStr.last s = Some c -> PyStr.isspace c = false) -> PyStr.rstrip s = s.
Proof.
  induction s as [|a s IH]; [reflexivity|]. intros H.
  destruct s as [|b s].
  - simpl. now rewrite (H a eq_refl).
  - change (PyStr.rstrip (String a (String b s)))
      with (match PyStr.rstrip (String b s) with
            | EmptyString => if PyStr.isspace a then EmptyString else String a EmptyString
            | r' => String a r'
            end).
    rewrite IH; [reflexivity|]. intros c Hc. now apply H.
Qed.

Lemma strip_fixed (s : string) : trimmed s -> PyStr.strip s = s.
Proof.
  intros [Hf Hl]. unfold PyStr.strip. rewrite (lstrip_fixed s Hf). now apply rstrip_fixed.
Qed.

Lemma strip_idem (s : string) : PyStr.strip (PyStr.strip s) = PyStr.strip s.
Proof. apply strip_fixed, strip_trimmed. Qed.

(** The pieces of a split do not hold the separator, and hold only
    characters of the string. *)
Lemma split_pieces (sep : ascii) (s piece : string) :
  In piece (PyStr.split sep s) ->
  ~ In sep (chars piece) /\ (forall c, In c (chars piece) -> In c (chars s)).
Proof.
  revert piece; induction s as [|a s IH]; simpl; intros piece.
  - intros [<- | []]. simpl. tauto.
  - destruct (Ascii.eqb a sep) eqn:E.
    + intros [<- | Hin]; [simpl; tauto|].
      destruct (IH _ Hin) as [H1 H2]. split; [exact H1 | auto].
    + apply Ascii.eqb_neq in E.
      destruct (PyStr.split sep s) as [|h t] eqn:Hs.
      * intros [<- | []]. simpl. split; [intros [? | []]; congruence | tauto].
      * intros [<- | Hin].
        -- destruct (IH h (or_introl eq_refl)) as [H1 H2]. simpl.
           split; [intros [? | ?]; [congruence | tauto]|].
           intros c [<- | Hc]; auto.
        -- destruct (IH piece (or_intror Hin)) as [H1 H2]. split; [exact H1 | auto].
Qed.

Lemma split_no_sep (sep : ascii) (s : string) :
  ~ In sep (chars s) -> PyStr.split sep s = [s].
Proof.
  induction s as [|a s IH]; simpl; [reflexivity|]. intros H.
  destruct (Ascii.eqb a sep) eqn:E; [apply Ascii.eqb_eq in E; tauto|].
  rewrite IH by tauto. reflexivity.
Qed.

Lemma split_app_sep (sep : ascii) (s rest : string) :
  ~ In sep (chars s) ->
  PyStr.split sep (s ++ String sep rest) = s :: PyStr.split sep rest.
Proof.
  induction s as [|a s IH]; simpl; intros H.
  - now rewrite Ascii.eqb_refl.
  - destruct (Ascii.eqb a sep) eqn:E; [apply Ascii.eqb_eq in E; tauto|].
    rewrite IH by tauto. reflexivity.
Qed.

(** Splitting a join gives the parts back, when there are parts and none
    holds the separator. *)
Lemma split_join (sep : ascii) (parts : list string) :
  parts <> [] ->
  Forall (fun x => ~ In sep (chars x)) parts ->
  PyStr.split sep (PyStr.join (String sep EmptyString) parts) = parts.
Proof.
  unfold PyStr.join.
  induction parts as [|x parts IH]; [congruence|]. intros _ H.
  apply Forall_cons_iff in H as [Hx Hparts].
  destruct parts as [|y parts].
  - simpl. now apply split_no_sep.
  - change (String.concat (String sep EmptyString) (x :: y :: parts))
      with (x ++ String sep (String.concat (String sep EmptyString) (y :: parts))).
    rewrite (split_app_sep _ _ _ Hx), IH; [reflexivity | discriminate | exact Hparts].
Qed.

(** ** More on the keyword list *)

Lemma parsed_keyword_facts (raw k : string) :
  In k (parse_keywords raw) ->
  PyStr.lower k = k /\ PyStr.strip k = k /\ k <> EmptyString
  /\ ~ In ","%char (chars k)
  /\ (forall c, In c (chars k) -> is_upper c = false).
Proof.
  unfold parse_keywords. rewrite in_map_iff.
  intros (k0 & <- & Hin). apply filter_In in Hin as [Hin Ht].
  apply PyStrFacts.truthy_nonempty in Ht.
  split; [apply lower_idem|].
  split; [now rewrite strip_lower, strip_idem|].
  split; [intros E; now apply PyStrFacts.lower_empty in E|].
  rewrite chars_lower. split.
  - intros Hc. apply in_map_iff in Hc as (c & Hc & Hin').
    apply lower_char_comma in Hc. subst c.
    apply chars_strip in Hin'. now apply (split_pieces _ _ _ Hin).
  - intros c Hc. apply in_map_iff in Hc as (c0 & <- & _). apply lower_char_not_upper.
Qed.

(** X9. Every keyword parsed at load is in lower case (lowering it again
    changes nothing, and it holds no capital letter) and holds no comma. *)
Theorem parsed_keywords_lowercase (raw k : string)
        (Hk : In k (parse_keywords raw)) :
  PyStr.lower k = k
  /\ (forall c, In c (chars k) -> is_upper c = false)
  /\ ~ In ","%char (chars k).
Proof.
  destruct (parsed_keyword_facts raw k Hk) as (H1 & _ & _ & H2 & H3). auto.
Qed.

Lemma parsed_keywords_lowercase_witness :
  In "c++ developer" (parse_keywords "Junior, C++ Developer ,,INTERN")
  /\ PyStr.lower "c++ developer" = "c++ developer".
Proof.
  assert (H : In "c++ developer" (parse_keywords "Junior, C++ Developer ,,INTERN"))
    by (simpl; tauto).
  split; [exact H|].
  exact (proj1 (parsed_keywords_lowercase _ _ H)).
Defined.

Lemma substring_chars (k t : string) (c : ascii) :
  substring_of k t -> In c (chars k) -> In c (chars t).
Proof.
  intros (pre & post & ->) Hc. rewrite !chars_app, !in_app_iff. tauto.
Qed.

(** X10. The title is lowered before the test, so a keyword with a
    capital letter in it matches no title at all, and removing it from the
    keyword list changes nothing: keywords only work in lower case, which
    is why the list is lowered at load. *)
Theorem capital_keyword_never_matches
        (k : string) (c : ascii)
        (Hc : In c (chars k))
        (Hupper : is_upper c = true) :
  (forall t, PyStr.contains k (PyStr.lower t) = false)
  /\ (forall keywords t, matches (k :: keywords) t = matches keywords t).
Proof.
  assert (H : forall t, PyStr.contains k (PyStr.lower t) = false).
  { intros t. destruct (PyStr.contains k (PyStr.lower t)) eqn:E; [|reflexivity].
    apply PyStrFacts.contains_spec in E.
    pose proof (substring_chars _ _ _ E Hc) as Hin.
    rewrite chars_lower in Hin. apply in_map_iff in Hin as (c0 & <- & _).
    now rewrite lower_char_not_upper in Hupper. }
  split; [exact H|].
  intros keywords t. unfold matches. simpl. now rewrite H.
Qed.

Lemma capital_keyword_never_matches_witness :
  In "D"%char (chars "Data") /\ is_upper "D"%char = true
  /\ matches ["Data"] "Data Engineer" = false
  /\ matches ["data"] "Data Engineer" = true.
Proof.
  split; [simpl; tauto|]. split; [reflexivity|].
  split; [|reflexivity].
  assert (Hin : In "D"%char (chars "Data")) by (simpl; tauto).
  rewrite (proj2 (capital_keyword_never_matches "Data" "D"%char Hin eq_refl) [] "Data Engineer").
  reflexivity.
Defined.

Lemma map_fixed {A} (f : A -> A) (l : list A) :
  Forall (fun x => f x = x) l -> map f l = l.
Proof. induction 1 as [|x l Hx _ IH]; simpl; [reflexivity|]. now rewrite Hx, IH. Qed.

(** X11. Writing the parsed keywords back with commas between them and
    parsing that text again gives the same list: parsing is stable on its
    own output. *)
Theorem parse_keywords_round_trip (raw : string) :
  parse_keywords (PyStr.join "," (parse_keywords raw)) = parse_keywords raw.
Proof.
  set (ks := parse_keywords raw).
  assert (Hks : forall k, In k ks -> In k (parse_keywords raw)) by (intros; assumption).
  clearbody ks.
  destruct ks as [|k0 ks']; [reflexivity|].
  unfold parse_keywords at 1.
  rewrite split_join.
  - rewrite filter_all.
    + apply map_fixed. apply Forall_forall. intros k Hk.
      destruct (parsed_keyword_facts raw k (Hks k Hk)) as (Hl & Hs & _).
      now rewrite Hs, Hl.
    + apply Forall_forall. intros k Hk.
      destruct (parsed_keyword_facts raw k (Hks k Hk)) as (_ & Hs & Hne & _).
      rewrite Hs. now apply PyStrFacts.truthy_nonempty.
  - discriminate.
  - apply Forall_forall. intros k Hk.
    now destruct (parsed_keyword_facts raw k (Hks k Hk)) as (_ & _ & _ & Hc & _).
Qed.

Lemma lstrip_blank (s : string) :
  (forall c, In c (chars s) -> PyStr.isspace c = true) -> PyStr.lstrip s = EmptyString.
Proof.
  induction s as [|a s IH]; simpl; [reflexivity|]. intros H.
  rewrite (H a (or_introl eq_refl)). apply IH. auto.
Qed.

Lemma filter_none {A} (f : A -> bool) (l : list A) :
  (forall x, In x l -> f x = false) -> filter f l = [].
Proof.
  induction l as [|x l IH]; simpl; [reflexivity|]. intros H.
  rewrite (H x (or_introl eq_refl)). apply IH. auto.
Qed.

(** X17. A keyword setting made only of commas and white space (the empty
    setting among them) parses to the empty list, and then no record is
    ever retained. *)
Theorem blank_keywords_parse_to_nothing (raw : string)
        (Hblank : forall c, In c (chars raw) -> c = ","%char \/ PyStr.isspace c = true) :
  parse_keywords raw = []
  /\ (forall jobs r, select (parse_keywords raw) jobs = Ok r -> r = []).
Proof.
  assert (H : parse_keywords raw = []).
  { unfold parse_keywords.
    replace (filter (fun k => PyStr.truthy (PyStr.strip k)) (PyStr.split "," raw))
      with (@nil string); [reflexivity|].
    symmetry. apply filter_none. intros piece Hpiece.
    destruct (split_pieces _ _ _ Hpiece) as [Hsep Hsub].
    unfold PyStr.strip. rewrite lstrip_blank; [reflexivity|].
    intros c Hc. destruct (Hblank c (Hsub c Hc)) as [-> | Hs]; [tauto | exact Hs]. }
  split; [exact H|]. rewrite H.
  intros jobs r. unfold select.
  destruct (slice_from_1 jobs) as [js| |]; simpl; try discriminate.
  apply for_each_no_keyword.
Qed.

Lemma blank_keywords_parse_to_nothing_witness :
  parse_keywords " , ,, " = [] /\ parse_keywords "" = [].
Proof.
  split.
  - refine (proj1 (blank_keywords_parse_to_nothing " , ,, " _)).
    simpl. intros c H.
    repeat (destruct H as [<- | H]; [first [now left | now right]|]). destruct H.
  - refine (proj1 (blank_keywords_parse_to_nothing "" _)). intros c [].
Defined.

(** ** More on the digest *)

Lemma append_empty (s : string) : s ++ EmptyString = s.
Proof. induction s as [|a s IH]; simpl; [reflexivity | now rewrite IH]. Qed.

Lemma append_assoc3 (s t u : string) : (s ++ t) ++ u = s ++ t ++ u.
Proof. induction s as [|a s IH]; simpl; [reflexivity | now rewrite IH]. Qed.

Lemma concat_substring (sep x : string) (parts : list string) :
  In x parts -> substring_of x (String.concat sep parts).
Proof.
  induction parts as [|y parts IH]; [intros []|].
  destruct parts as [|z parts].
  - intros [-> | []]. exists EmptyString, EmptyString. simpl.
    now rewrite append_empty.
  - change (String.concat sep (y :: z :: parts))
      with (y ++ sep ++ String.concat sep (z :: parts)).
    intros [-> | Hin].
    + now exists EmptyString, (sep ++ String.concat sep (z :: parts)).
    + destruct (IH Hin) as (pre & post & ->).
      exists (y ++ sep ++ pre), post.
      now rewrite !append_assoc3.
Qed.

(** X14. Every posting handed to [send_email] has its block in the body of
    the email, title, company and link included; the blocks come in the
    order of the list, each followed by an empty line before the next; and
    the body is never empty. *)
Theorem every_posting_is_in_the_body (w : world) (jobs : list posting) (p : posting)
        (Hin : In p jobs) :
  substring_of (block w p) (email_body w jobs)
  /\ substring_of (title p) (block w p)
  /\ substring_of (company p) (block w p)
  /\ substring_of (format_value w (link p)) (block w p)
  /\ email_body w jobs <> EmptyString
  /\ (forall q r rest,
        email_body w (q :: r :: rest) =
        block w q ++ PyStr.nl ++ email_body w (r :: rest)).
Proof.
  split; [|split; [|split; [|split; [|split]]]].
  - destruct jobs as [|q jobs]; [destruct Hin|].
    unfold email_body, PyStr.join. apply concat_substring. now apply in_map.
  - now exists EmptyString,
      (" at " ++ company p ++ PyStr.nl ++ "Apply: " ++ format_value w (link p) ++ PyStr.nl).
  - exists (title p ++ " at "),
      (PyStr.nl ++ "Apply: " ++ format_value w (link p) ++ PyStr.nl).
    unfold block. now rewrite !append_assoc3.
  - exists (title p ++ " at " ++ company p ++ PyStr.nl ++ "Apply: "), PyStr.nl.
    unfold block. now rewrite !append_assoc3.
  - destruct jobs as [|q jobs]; [destruct Hin|].
    unfold email_body, PyStr.join.
    assert (Hb : forall x, block w x <> EmptyString).
    { intros x. unfold block. destruct (title x); discriminate. }
    destruct jobs as [|r jobs]; simpl.
    + apply Hb.
    + intros E. destruct (block w q) eqn:Eq; [now apply Hb in Eq | discriminate].
  - reflexivity.
Qed.

Lemma every_posting_is_in_the_body_witness :
  In sample_posting [mk_posting "Chef" "Bistro" (JStr ""); sample_posting]
  /\ substring_of (block good_world sample_posting)
       (email_body good_world [mk_posting "Chef" "Bistro" (JStr ""); sample_posting]).
Proof.
  assert (H : In sample_posting [mk_posting "Chef" "Bistro" (JStr ""); sample_posting])
    by (simpl; tauto).
  split; [exact H|].
  exact (proj1 (every_posting_is_in_the_body good_world _ _ H)).
Defined.

(** ** Who the mail is from and to *)

(** Every SMTP event of a run is one of the five calls of the session,
    and the run had both secrets. *)
Lemma trace_smtp_events (w : world) (cfg : config) (ev : event) :
  In ev (trace w cfg) -> is_network ev = true -> is_http ev = false ->
  present (SENDER_EMAIL cfg) /\ present (SENDER_PASSWORD cfg)
  /\ exists msg, In ev (map snd (smtp_calls cfg msg)).
Proof.
  rewrite trace_eq.
  destruct (Py.truthy_opt (SENDER_EMAIL cfg)) eqn:Ha.
  2:{ rewrite main_secrets_absent by (left; exact Ha). simpl.
      intros [<- | []]; discriminate. }
  destruct (Py.truthy_opt (SENDER_PASSWORD cfg)) eqn:Hb.
  2:{ rewrite main_secrets_absent by (right; exact Hb). simpl.
      intros [<- | []]; discriminate. }
  destruct (zone w cfg) as [f|] eqn:Hz.
  2:{ rewrite (main_secrets_present _ _ Ha Hb), is_target_time_eq, local_now_eq, Hz.
      intros []. }
  destruct (Calendar.hour (gate_time w f) =? TARGET_HOUR cfg) eqn:Hh.
  2:{ rewrite (main_with_zone _ _ _ Ha Hb Hz). cbv zeta. rewrite Hh. simpl.
      intros [<- | [<- | []]]; discriminate. }
  apply Z.eqb_eq in Hh.
  pose proof (fetch_jobs_eq w cfg
                (mk_state 1 [Console (LogLocalTime (TIMEZONE cfg) (gate_time w f))]))
    as Hfetch.
  cbv zeta in Hfetch.
  destruct (fetch_outcome w) as [e|parsed].
  - rewrite (gate_open_trace _ _ _ _ _ Ha Hb Hz Hh Hfetch). cbv zeta.
    cbn [snd out ticks]. rewrite !in_app_iff. cbn [In].
    intros [[[[<- | []] | [<- | []]] | [<- | []]] | [Hin | [<- | []]]] Hn Hh';
      try discriminate.
    split; [exact Ha|]. split; [exact Hb|]. eexists. eapply session_subset, Hin.
  - destruct (select (KEYWORDS cfg) parsed) as [jobs|e|c] eqn:Hs.
    + rewrite (gate_open_trace _ _ _ _ _ Ha Hb Hz Hh Hfetch). cbv zeta.
      cbn [snd out ticks]. rewrite !in_app_iff. cbn [In].
      intros [[[<- | []] | [<- | []]] | [Hin | [<- | []]]] Hn Hh';
        try discriminate.
      split; [exact Ha|]. split; [exact Hb|]. eexists. eapply session_subset, Hin.
    + rewrite (gate_open_raise _ _ _ _ _ Ha Hb Hz Hh Hfetch).
      cbn [snd out ticks]. rewrite !in_app_iff. cbn [In].
      intros [[<- | []] | [<- | []]]; discriminate.
    + now apply select_not_exit in Hs.
Qed.

(** X15. Whenever a run logs in to the SMTP server it does so with the
    two secrets, both present, and whenever it calls [sendmail] the mail
    is from the sender address to the receiver address.  Under the
    configuration read from the environment, the receiver is the sender
    when RECEIVER_EMAIL is unset; when it is set, even to the empty
    string, it is used as it is. *)
Theorem mail_goes_from_sender_to_receiver
        (w : world) (int : string -> Z) (environ : string -> option string) (ev : event)
        (Hev : In ev (trace w (load_config int environ))) :
  (forall user password,
      ev = SmtpLogin user password ->
      user = environ "SENDER_EMAIL" /\ password = environ "SENDER_PASSWORD"
      /\ present user /\ present password)
  /\ (forall sender receiver msg,
        ev = SmtpSendmail sender receiver msg ->
        sender = environ "SENDER_EMAIL" /\ present sender
        /\ (environ "RECEIVER_EMAIL" = None -> receiver = sender)
        /\ (forall r, environ "RECEIVER_EMAIL" = Some r -> receiver = Some r)).
Proof.
  split.
  - intros user password ->.
    destruct (trace_smtp_events _ _ _ Hev eq_refl eq_refl) as (Ha & Hb & msg & Hin).
    simpl in Hin.
    destruct Hin as [H | [H | [H | [H | [H | []]]]]]; try discriminate H.
    injection H as <- <-. now repeat split.
  - intros sender receiver msg ->.
    destruct (trace_smtp_events _ _ _ Hev eq_refl eq_refl) as (Ha & Hb & msg' & Hin).
    simpl in Hin.
    destruct Hin as [H | [H | [H | [H | [H | []]]]]]; try discriminate H.
    injection H as <- <- _. split; [reflexivity|]. split; [exact Ha|].
    split; [now intros -> | now intros r ->].
Qed.

Lemma mail_goes_from_sender_to_receiver_witness :
  In (SmtpLogin (Some "me@example.org") (Some "app-password"))
     (trace good_world (load_config (fun _ => 12) sample_environ))
  /\ Some "me@example.org" = sample_environ "SENDER_EMAIL".
Proof.
  assert (H : In (SmtpLogin (Some "me@example.org") (Some "app-password"))
                 (trace good_world (load_config (fun _ => 12) sample_environ)))
    by (vm_compute; tauto).
  split; [exact H|].
  exact (proj1 (proj1 (mail_goes_from_sender_to_receiver
                         good_world (fun _ => 12) sample_environ _ H)
                      _ _ eq_refl)).
Defined.
